(** * piped: a transport-agnostic relay

    A shallow embedding of the relay's JavaScript sources and the
    properties of its backend health tracking, backend selection,
    datagram send, reconnect supervisor and admin channel.

    Two generations of the code live side by side in the repository:
    - the monolith (module flow, listeners, [_available_server], the
      reconnect interval, [___admin_command]) is embedded in [Module Piped];
    - [lib/remote_send.js] and [lib/admin_server.js] are embedded in
      [Module RemoteSend] and [Module AdminServer].

    JavaScript numbers that hold timestamps and counters are modelled as
    [Z] (they are exact integers far below 2^53); strings are [string]
    (one character per byte); [false] used as "absent" is [None]. *)

From stdpp Require Import base numbers list strings gmap.
From Stdlib Require Import Ascii String.

Open Scope string_scope.
Open Scope Z_scope.

(** ** The JavaScript runtime pieces the sources rely on *)

Module Js.

(** A number slot that may hold [NaN] (the result of [undefined++]). *)
Inductive Num :=
| NaN
| Int (z : Z).

(** [x++] on a property that may be missing. *)
Definition incr (x : option Num) : Num :=
  match x with
  | Some (Int z) => Int (z + 1)
  | _ => NaN
  end.

(** A property after [k] increments, [k] at least one. *)
Definition bump (k : nat) (x : option Num) : Num :=
  match x with
  | Some (Int z) => Int (z + Z.of_nat k)
  | _ => NaN
  end.

(** Truthiness of a number: [0] and [NaN] are falsy. *)
Definition truthy (x : option Num) : bool :=
  match x with
  | Some (Int z) => negb (z =? 0)
  | _ => false
  end.

(** Values a [throw] can carry out of a handler. *)
Inductive Exn :=
| TypeError (msg : string)
| ReferenceError (msg : string)
| Thrown (val : string).

(** An object used as a map: its own enumerable properties, in the order
    a [for (idx in obj)] loop visits them (insertion order; none of the
    keys used here is an array index). *)
Definition Obj (V : Type) := list (string * V).

Fixpoint get {V} (k : string) (o : Obj V) : option V :=
  match o with
  | [] => None
  | (k', v) :: o' => if String.eqb k k' then Some v else get k o'
  end.

(** The properties every plain object inherits from [Object.prototype]:
    for these names [o[k]] is a function (or the prototype itself) even
    when [o] has no such property of its own. *)
Definition object_prototype_names : list string :=
  ["constructor"; "toString"; "toLocaleString"; "valueOf"; "hasOwnProperty";
   "isPrototypeOf"; "propertyIsEnumerable"; "__defineGetter__";
   "__defineSetter__"; "__lookupGetter__"; "__lookupSetter__"; "__proto__"].

Definition inherited (k : string) : bool :=
  existsb (String.eqb k) object_prototype_names.

(** [o[k] = v]: overwrite in place, or append a new property. *)
Fixpoint set {V} (k : string) (v : V) (o : Obj V) : Obj V :=
  match o with
  | [] => [(k, v)]
  | (k', v') :: o' =>
      if String.eqb k k' then (k', v) :: o' else (k', v') :: set k v o'
  end.

Definition keys {V} (o : Obj V) : list string := o.*1.

(** Character classes of the regular expressions. *)
Definition is_digit (c : ascii) : bool :=
  let n := nat_of_ascii c in (48 <=? n)%nat && (n <=? 57)%nat.

Definition is_word (c : ascii) : bool :=
  let n := nat_of_ascii c in
  is_digit c
  || ((65 <=? n)%nat && (n <=? 90)%nat)
  || ((97 <=? n)%nat && (n <=? 122)%nat)
  || (n =? 95)%nat.

(** [.] matches everything but a line terminator. *)
Definition is_line_terminator (c : ascii) : bool :=
  let n := nat_of_ascii c in (n =? 10)%nat || (n =? 13)%nat.

(** White space removed by [String.prototype.trim] from a 7-bit string. *)
Definition is_space (c : ascii) : bool :=
  let n := nat_of_ascii c in
  ((9 <=? n)%nat && (n <=? 13)%nat) || (n =? 32)%nat.

Fixpoint ltrim (s : string) : string :=
  match s with
  | String c s' => if is_space c then ltrim s' else s
  | EmptyString => EmptyString
  end.

Fixpoint rtrim (s : string) : string :=
  match s with
  | String c s' =>
      match rtrim s' with
      | EmptyString => if is_space c then EmptyString else String c EmptyString
      | t => String c t
      end
  | EmptyString => EmptyString
  end.

Definition trim (s : string) : string := rtrim (ltrim s).

Fixpoint all_digits (s : string) : bool :=
  match s with
  | String c s' => is_digit c && all_digits s'
  | EmptyString => true
  end.

(** Greedy [\w+] at the start of [s]: the run of word characters and the
    rest of the string. *)
Fixpoint span_word (s : string) : string * string :=
  match s with
  | String c s' =>
      if is_word c
      then let '(w, r) := span_word s' in (String c w, r)
      else (EmptyString, s)
  | EmptyString => (EmptyString, EmptyString)
  end.

Definition strip_prefix (p s : string) : option string :=
  if String.prefix p s
  then Some (String.substring (String.length p)
                              (String.length s - String.length p) s)
  else None.

(** [(.+?):(\d+)$] against [s], with [host] the characters the lazy group
    has taken so far: the group grows one character at a time and the
    first length at which the rest is [":" digits] wins. *)
Fixpoint host_port (host s : string) : option (string * string) :=
  match s with
  | String c s' =>
      if negb (String.eqb host "") && Ascii.eqb c ":"
         && negb (String.eqb s' "") && all_digits s'
      then Some (host, s')
      else if is_line_terminator c then None
      else host_port (host +:+ String c EmptyString) s'
  | EmptyString => None
  end.

(** [str.match(/^\/.+?/)]: a slash followed by one more character. *)
Definition match_socket (str : string) : bool :=
  match str with
  | String "/" (String c _) => negb (is_line_terminator c)
  | _ => false
  end.

(** [str.match(/^(\w+):\/\/(.+?):(\d+)$/)]: the three groups. *)
Definition match_url (str : string) : option (string * string * string) :=
  let '(ty, r) := span_word str in
  if String.eqb ty "" then None
  else match strip_prefix "://" r with
       | Some r' =>
           match host_port "" r' with
           | Some (h, p) => Some (ty, h, p)
           | None => None
           end
       | None => None
       end.

(** Strings made of word characters only, and strings [.] can run over. *)
Fixpoint all_word (s : string) : bool :=
  match s with
  | String c s' => is_word c && all_word s'
  | EmptyString => true
  end.

Fixpoint no_line_terminator (s : string) : bool :=
  match s with
  | String c s' => negb (is_line_terminator c) && no_line_terminator s'
  | EmptyString => true
  end.

(** [hay] contains [needle] somewhere. *)
Fixpoint includes (needle hay : string) : bool :=
  String.prefix needle hay
  || match hay with
     | String _ hay' => includes needle hay'
     | EmptyString => false
     end.

End Js.

(** ** The monolith *)

Module Piped.

(** *** State / Config / Stats vars *)

Record ConfigT := mkConfig {
  unix_socket : string;
  udp_port : Z;
  encoding : string;
  debug : bool;
  trace : bool;
  tcp_port : Z;
  bind_address : string;
  admin_port : Z;
  admin_bind_address : string;
  reconnect_interval : Z;
  servers : list string;
}.

(** [Stats.connections] is indexed by the listener's type string, so it is
    kept as a property map; [start_time] and [uptime] are plain numbers. *)
Record StatsT := mkStats {
  connections : gmap string Js.Num;
  start_time : Z;
  uptime : Z;
}.

(** Lines written through [U.log], [U.error] and [U.debug]; [ULogBytes]
    is [U.log] of the byte count a datagram send reports ([None] when the
    send failed) and [UDebugState] is [U.debug( U.inspect( State ) )]. *)
Inductive Line :=
| ULog (s : string)
| ULogBytes (n : option Z)
| UError (s : string)
| UDebug (s : string)
| UDebugState.

(** *** Remote connection objects

    [_RemoteConnect] is instantiated exactly twice, by
    [RemoteUDPConnect.prototype = new _RemoteConnect()] and
    [RemoteStreamConnect.prototype = new _RemoteConnect()].  Inside it
    [var obj = this] is that prototype object, and [mark_available],
    [mark_unavailable], [incr_stats] and [stats] are closures over [obj].
    The constructors [RemoteUDPConnect] and [RemoteStreamConnect] assign
    only [connection], [name], [send] (and [is_stream]) on the instance, so
    the health fields below exist once per prototype: every instance built
    by one constructor reads and writes the same four fields. *)
Record Health := mkHealth {
  is_available : bool;
  state_changed : Z;
  state_changes : Z;
  last_sent : option Z;
}.

(** Which constructor built an instance, hence which prototype it has. *)
Inductive Kind :=
| Stream
| Udp.

#[export] Instance Kind_eq_dec : EqDecision Kind.
Proof. solve_decision. Defined.

(** Handles returned by [Net.createConnection] and [Dgram.createSocket].
    A net socket carries the [destroyed] flag the selector reads and, for
    the bookkeeping of in-flight connects, whether its connect is still
    pending and the name of the instance its handlers close over.  A
    datagram socket has no [destroyed] property: reading it yields
    [undefined]. *)
Inductive Handle :=
| NetSocket (destroyed : bool) (connecting : bool) (owner : string)
| DgramSocket.

Definition destroyed (h : option Handle) : bool :=
  match h with
  | Some (NetSocket d _ _) => d
  | _ => false
  end.

(** The own properties of an instance.  [connection] is the index of its
    handle in the table of handles; [host] and [port] are the arguments its
    [send] closure captured; [last_send] is the property the manual
    forwarders assign (it is never read). *)
Record Remote := mkRemote {
  name : string;
  kind : Kind;
  connection : nat;
  host : string;
  port : string;
  last_send : option Z;
}.

Definition is_stream (r : Remote) : bool :=
  match kind r with Stream => true | Udp => false end.

(** The whole process: the three global objects, the two prototypes, every
    handle ever created, the lines printed so far and the wall clock (in
    seconds) that [_now()] reads. *)
Record World := mkWorld {
  Config : ConfigT;
  Stats : StatsT;
  State_servers : Js.Obj Remote;
  stream_proto : Health;
  udp_proto : Health;
  handles : list Handle;
  out : list Line;
  clock : Z;
}.

Definition _now (w : World) : Z := clock w.

Definition proto (k : Kind) (w : World) : Health :=
  match k with Stream => stream_proto w | Udp => udp_proto w end.

Definition set_proto (k : Kind) (h : Health) (w : World) : World :=
  match k with
  | Stream => mkWorld (Config w) (Stats w) (State_servers w) h (udp_proto w)
                      (handles w) (out w) (clock w)
  | Udp => mkWorld (Config w) (Stats w) (State_servers w) (stream_proto w) h
                   (handles w) (out w) (clock w)
  end.

Definition set_servers (s : Js.Obj Remote) (w : World) : World :=
  mkWorld (Config w) (Stats w) s (stream_proto w) (udp_proto w)
          (handles w) (out w) (clock w).

Definition set_stats (s : StatsT) (w : World) : World :=
  mkWorld (Config w) s (State_servers w) (stream_proto w) (udp_proto w)
          (handles w) (out w) (clock w).

Definition set_handles (hs : list Handle) (w : World) : World :=
  mkWorld (Config w) (Stats w) (State_servers w) (stream_proto w) (udp_proto w)
          hs (out w) (clock w).

Definition print (l : Line) (w : World) : World :=
  mkWorld (Config w) (Stats w) (State_servers w) (stream_proto w) (udp_proto w)
          (handles w) (out w ++ [l]) (clock w).

(** The environment moving the wall clock between two handlers. *)
Definition set_clock (t : Z) (w : World) : World :=
  mkWorld (Config w) (Stats w) (State_servers w) (stream_proto w) (udp_proto w)
          (handles w) (out w) t.

(** [Net.createConnection] / [Dgram.createSocket]: a fresh handle. *)
Definition alloc (h : Handle) (w : World) : nat * World :=
  (List.length (handles w), set_handles (handles w ++ [h]) w).

(** The fields of the base object at [new _RemoteConnect()]. *)
Definition _RemoteConnect (now : Z) : Health :=
  {| is_available := false; state_changed := now;
     state_changes := 0; last_sent := None |}.

(** [remote.is_available] and friends: property reads on an instance fall
    through to its prototype. *)
Definition health (r : Remote) (w : World) : Health := proto (kind r) w.

Definition mark_available (r : Remote) (w : World) : World :=
  let h := health r w in
  set_proto (kind r)
    {| is_available := true; state_changed := _now w;
       state_changes := state_changes h + 1; last_sent := last_sent h |} w.

Definition mark_unavailable (r : Remote) (w : World) : World :=
  let h := health r w in
  set_proto (kind r)
    {| is_available := false; state_changed := _now w;
       state_changes := state_changes h + 1; last_sent := last_sent h |} w.

Definition incr_stats (r : Remote) (w : World) : World :=
  let h := health r w in
  set_proto (kind r)
    {| is_available := is_available h; state_changed := state_changed h;
       state_changes := state_changes h; last_sent := Some (_now w) |} w.

(** The object [stats()] returns. *)
Record StatsView := mkStatsView {
  sv_available : bool;
  sv_last_sent : option Z;
  sv_state_changes : Z;
  sv_state_changed : Z;
  sv_idle : Z;
}.

Definition stats (r : Remote) (w : World) : StatsView :=
  let h := health r w in
  {| sv_available := is_available h;
     sv_last_sent := last_sent h;
     sv_state_changes := state_changes h;
     sv_state_changed := _now w - state_changed h;
     sv_idle := match last_sent h with
                | Some t => if t =? 0 then uptime (Stats w) else _now w - t
                | None => uptime (Stats w)
                end |}.

(** [is_usable()] of the specification, as the selector tests it:
    [is_available] is not [false] and the handle is not destroyed. *)
Definition is_usable (r : Remote) (w : World) : bool :=
  is_available (health r w) && negb (destroyed (handles w !! connection r)).

(** Handlers either return or let an exception escape. *)
Inductive Res (A : Type) :=
| Ret (a : A) (w : World)
| Raise (e : Js.Exn) (w : World).
Arguments Ret {A} a w.
Arguments Raise {A} e w.

Definition world {A} (r : Res A) : World :=
  match r with Ret _ w => w | Raise _ w => w end.

(** *** The constructors *)

(** [new RemoteUDPConnect(name, host, port)]. *)
Definition RemoteUDPConnect (nm h p : string) (w : World) : Remote * World :=
  let '(c, w1) := alloc DgramSocket w in
  let this := mkRemote nm Udp c h p None in
  (this, mark_available this w1).

(** [new RemoteStreamConnect(name, host, port)]: the handlers it installs
    are [on_connect] and [on_error] below. *)
Definition RemoteStreamConnect (nm h p : string) (w : World) : Remote * World :=
  let '(c, w1) := alloc (NetSocket false true nm) w in
  (mkRemote nm Stream c h p None, w1).

Definition when (b : bool) (l : Line) (w : World) : World :=
  if b then print l w else w.

(** [_connect_to_server(str, reconnect)]. *)
Definition _connect_to_server (str : string) (reconnect : bool) (w : World)
  : Res Remote :=
  let pre := if reconnect then "RE-" else "" in
  let w := when (trace (Config w))
                (UDebug (pre +:+ "Connecting to remote " +:+ str)) w in
  if Js.match_socket str then
    let '(r, w') := RemoteStreamConnect str str str w in Ret r w'
  else
    match Js.match_url str with
    | Some (ty, h, p) =>
        if String.eqb ty "tcp" then
          let '(r, w') := RemoteStreamConnect str h p w in Ret r w'
        else if String.eqb ty "udp" then
          let '(r, w') := RemoteUDPConnect str h p w in Ret r w'
        else Raise (Js.Thrown ("Unknown server type '" +:+ ty +:+ "'")) w
    | None =>
        Raise (Js.Thrown ("Can not parse connection string '" +:+ str +:+ "'")) w
    end.

(** The handlers [RemoteStreamConnect] installs on its socket.  [obj] in
    them is the instance, whose [mark_available] / [mark_unavailable] are
    the prototype's closures. *)

(** ['connect'] on the socket of [obj]. *)
Definition on_connect (obj : Remote) (w : World) : World :=
  let w := print (ULog ("Connected to " +:+ name obj)) w in
  mark_available obj w.

(** ['error'] on the socket of [obj], with [e] already rendered. *)
Definition on_error (obj : Remote) (e : string) (w : World) : World :=
  let w := when (trace (Config w))
                (UError ("ERROR: " +:+ name obj +:+ ": " +:+ e)) w in
  mark_unavailable obj w.

(** *** Sending *)

(** What a [send] hands to its handle: [connection.write( data )] for a
    stream instance, [connection.send( buf, 0, len, port, host, cb )] for a
    datagram instance. *)
Inductive Wire :=
| SocketWrite (c : nat) (data : list Byte.byte)
| DgramSend (c : nat) (buf : list Byte.byte) (offset len : Z) (port host : string).

(** [this.send] of [RemoteUDPConnect]. *)
Definition udp_send (obj : Remote) (data : list Byte.byte) (w : World) : Wire :=
  let buf := data in
  let len := if String.eqb (encoding (Config w)) "ascii"
             then Z.of_nat (List.length buf) - 1
             else Z.of_nat (List.length buf) in
  DgramSend (connection obj) buf 0 len (port obj) (host obj).

(** [this.send] of [RemoteStreamConnect]. *)
Definition stream_send (obj : Remote) (data : list Byte.byte) : Wire :=
  SocketWrite (connection obj) data.

Definition send (r : Remote) (data : list Byte.byte) (w : World) : Wire :=
  match kind r with
  | Stream => stream_send r data
  | Udp => udp_send r data w
  end.

(** The bytes that leave the process: the slice [buf[offset, offset+len)]
    when it lies inside the buffer. *)
Definition forwarded (x : Wire) : option (list Byte.byte) :=
  match x with
  | SocketWrite _ data => Some data
  | DgramSend _ buf off len _ _ =>
      if (0 <=? off) && (0 <=? len) && (off + len <=? Z.of_nat (List.length buf))
      then Some (take (Z.to_nat len) (drop (Z.to_nat off) buf))
      else None
  end.

(** The callback of a datagram send: [function ( err, bytes ) { U.log( bytes ) }]. *)
Definition on_sent (bytes : option Z) (w : World) : World :=
  print (ULogBytes bytes) w.

(** *** Find available servers *)

Fixpoint _available_server (servers : Js.Obj Remote) (w : World)
  : option Remote * World :=
  match servers with
  | (idx, remote) :: rest =>
      let nm := name remote in
      let w := when (debug (Config w))
                    (UDebug ("Attempting to use '" +:+ nm +:+ "'")) w in
      if negb (is_available (health remote w)) then
        _available_server rest w
      else if destroyed (handles w !! connection remote) then
        let w := print (UError ("Server " +:+ nm +:+
                                " unavailable - marking for reconnect")) w in
        _available_server rest (mark_unavailable remote w)
      else (Some remote, w)
  | [] => (None, print (UError "No available servers") w)
  end.

(** One step of the scan: the world in which the next backend is examined. *)
Definition scan_step (remote : Remote) (w : World) : World :=
  let w := when (debug (Config w))
                (UDebug ("Attempting to use '" +:+ name remote +:+ "'")) w in
  if negb (is_available (health remote w)) then w
  else if destroyed (handles w !! connection remote) then
    mark_unavailable remote
      (print (UError ("Server " +:+ name remote +:+
                      " unavailable - marking for reconnect")) w)
  else w.

(** What a scan of the selector leaves alone. *)
Definition same_env (w w' : World) : Prop :=
  Config w' = Config w /\ Stats w' = Stats w
  /\ State_servers w' = State_servers w
  /\ handles w' = handles w /\ clock w' = clock w.

(** *** Local listeners *)

(** [incr_stats] of [_LocalListen], applied to a listener of type [ty]. *)
Definition listen_incr_stats (ty : string) (w : World) : World :=
  let c := connections (Stats w) in
  let c := <[ty := Js.incr (c !! ty)]> c in
  let c := <["total" := Js.incr (c !! "total")]> c in
  let c := <["last" := Js.Int (_now w)]> c in
  set_stats (mkStats c (start_time (Stats w)) (uptime (Stats w))) w.

(** How a stream listener wired an accepted connection. *)
Inductive Bridge :=
| Pipe (remote : Remote)
| Manual (remote : Remote).

(** The ['connection'] handler of [LocalStreamListen] for a listener of
    type [ty].  When the selector returned [false], [remote.incr_stats] is
    [undefined] and calling it throws. *)
Definition on_connection (ty : string) (w : World) : Res Bridge :=
  let '(remote, w) := _available_server (State_servers w) w in
  let w := listen_incr_stats ty w in
  match remote with
  | None => Raise (Js.TypeError "remote.incr_stats is not a function") w
  | Some remote =>
      let w := incr_stats remote w in
      if is_stream remote then
        Ret (Pipe remote)
            (when (trace (Config w)) (UDebug ("Piping to " +:+ name remote)) w)
      else
        Ret (Manual remote)
            (when (trace (Config w)) (UDebug ("Manual send to " +:+ name remote)) w)
  end.

(** The ['data'] handler a [Manual] bridge installs: the send, and the
    instance with [last_send] assigned. *)
Definition on_data (remote : Remote) (data : list Byte.byte) (w : World)
  : Wire * Remote :=
  (send remote data w,
   mkRemote (name remote) (kind remote) (connection remote)
            (host remote) (port remote) (Some (_now w))).

(** The ['message'] handler of [LocalUDPListen]: no variable [remote] is in
    scope there, so evaluating it throws after the listener's own
    bookkeeping. *)
Definition on_message (ty : string) (data : list Byte.byte) (w : World)
  : Res unit :=
  let w := listen_incr_stats ty w in
  Raise (Js.ReferenceError "remote is not defined") w.

(** *** Admin commands *)

Inductive Reply :=
| Text (s : string)
| JsonStats (stats : StatsT) (servers : Js.Obj StatsView).

Definition ___admin_command (cmd : string) (w : World) : Reply * World :=
  let w := when (debug (Config w)) (UDebug ("Got admin command: " +:+ cmd)) w in
  let up := _now w - start_time (Stats w) in
  let c := connections (Stats w) in
  let idle := if Js.truthy (c !! "last")
              then match c !! "last" with
                   | Some (Js.Int l) => Js.Int (_now w - l)
                   | _ => Js.NaN
                   end
              else Js.Int up in
  let w := set_stats (mkStats (<["idle" := idle]> c) (start_time (Stats w)) up) w in
  if String.eqb cmd "stats" then
    let map := foldl (fun m '(idx, r) => Js.set (name r) (stats r w) m)
                     [] (State_servers w) in
    (JsonStats (Stats w) map, w)
  else if String.eqb cmd "ping" then (Text "pong", w)
  else if String.eqb cmd "logrotate" then (Text "TODO", w)
  else if String.eqb cmd "dump" then
    (Text ("ERROR" +:+ String "010" ""), print UDebugState w)
  else (Text ("ERROR" +:+ String "010" ""), w).

(** The commands the [switch] has a [case] for. *)
Definition recognized (cmd : string) : bool :=
  String.eqb cmd "stats" || String.eqb cmd "ping"
  || String.eqb cmd "logrotate" || String.eqb cmd "dump".

(** One connection to the admin server: whether either end closed it, and
    everything written to the client so far. *)
Record AdminStream := mkAdminStream {
  closed : bool;
  written : list Reply;
}.

Definition stream_write (r : Reply) (s : AdminStream) : AdminStream :=
  if closed s then s else mkAdminStream false (written s ++ [r]).

(** The ['data'] handler of the admin server. *)
Definition on_admin_data (data : string) (s : AdminStream) (w : World)
  : AdminStream * World :=
  let c := connections (Stats w) in
  let w := set_stats (mkStats (<["admin" := Js.incr (c !! "admin")]> c)
                              (start_time (Stats w)) (uptime (Stats w))) w in
  let cmd := Js.trim data in
  let '(reply, w) := ___admin_command cmd w in
  (stream_write reply s, w).

(** *** Setup code *)

(** The globals right after the module body has run, at time [t0]. *)
Definition boot (cfg : ConfigT) (t0 : Z) : World :=
  {| Config := cfg;
     Stats := {| connections :=
                   list_to_map [("admin", Js.Int 0); ("tcp", Js.Int 0);
                                ("udp", Js.Int 0); ("socket", Js.Int 0);
                                ("total", Js.Int 0); ("last", Js.Int 0);
                                ("idle", Js.Int 0)];
                 start_time := t0; uptime := 0 |};
     State_servers := [];
     stream_proto := _RemoteConnect t0;
     udp_proto := _RemoteConnect t0;
     handles := [];
     out := [];
     clock := t0 |}.

(** The initial connect loop over [Config.servers].  Its test
    [State.servers[name] == undefined] is a property read on a plain
    object: it finds the instance stored under [name], and for a name
    that [Object.prototype] defines it finds the inherited member, so
    such a name is passed over like one that is connected already. *)
Fixpoint initial_connect (names : list string) (w : World) : Res unit :=
  match names with
  | nm :: rest =>
      match Js.get nm (State_servers w) with
      | None =>
          if Js.inherited nm then initial_connect rest w
          else
            match _connect_to_server nm false w with
            | Ret r w' =>
                initial_connect rest
                  (set_servers (Js.set nm r (State_servers w')) w')
            | Raise e w' => Raise e w'
            end
      | Some _ => initial_connect rest w
      end
  | [] => Ret tt w
  end.

Definition startup (cfg : ConfigT) (t0 : Z) : Res unit :=
  initial_connect (servers cfg) (boot cfg t0).

(** The body of the [setInterval] callback, over the keys [for (idx in
    State.servers)] enumerates. *)
Fixpoint reconnect_loop (idxs : list string) (w : World) : Res unit :=
  match idxs with
  | idx :: rest =>
      match Js.get idx (State_servers w) with
      | Some r =>
          if negb (is_available (health r w)) then
            match _connect_to_server (name r) true w with
            | Ret r' w' =>
                reconnect_loop rest
                  (set_servers (Js.set idx r' (State_servers w')) w')
            | Raise e w' => Raise e w'
            end
          else reconnect_loop rest w
      | None => Raise (Js.TypeError "State.servers[idx] is undefined") w
      end
  | [] => Ret tt w
  end.

(** One turn of that loop. *)
Definition reconnect_body (idx : string) (w : World) : Res unit :=
  match Js.get idx (State_servers w) with
  | Some r =>
      if negb (is_available (health r w)) then
        match _connect_to_server (name r) true w with
        | Ret r' w' => Ret tt (set_servers (Js.set idx r' (State_servers w')) w')
        | Raise e w' => Raise e w'
        end
      else Ret tt w
  | None => Raise (Js.TypeError "State.servers[idx] is undefined") w
  end.

Definition reconnectInt (w : World) : Res unit :=
  reconnect_loop (Js.keys (State_servers w)) w.

(** *** The event loop

    Everything that can happen to the process between two handlers, and the
    handler the runtime then runs to completion. *)

(** The socket of [obj] is one [RemoteStreamConnect] created for it. *)
Definition owns (obj : Remote) (w : World) : bool :=
  is_stream obj &&
  match handles w !! connection obj with
  | Some (NetSocket _ _ o) => String.eqb o (name obj)
  | _ => false
  end.

(** Its connect has not resolved yet. *)
Definition pending (obj : Remote) (w : World) : bool :=
  owns obj w &&
  match handles w !! connection obj with
  | Some (NetSocket d c _) => negb d && c
  | _ => false
  end.

(** The runtime resolving a connect, and destroying a socket. *)
Definition settle (c : nat) (w : World) : World :=
  match handles w !! c with
  | Some (NetSocket d _ o) =>
      set_handles (<[c := NetSocket d false o]> (handles w)) w
  | _ => w
  end.

Definition destroy (c : nat) (w : World) : World :=
  match handles w !! c with
  | Some (NetSocket _ _ o) =>
      set_handles (<[c := NetSocket true false o]> (handles w)) w
  | _ => w
  end.

Inductive Event :=
| EvClock (t : Z)
| EvConnect (obj : Remote)
| EvError (obj : Remote) (e : string)
| EvDestroy (c : nat)
| EvConnection (ty : string)
| EvMessage (ty : string) (data : list Byte.byte)
| EvSent (bytes : option Z)
| EvAdmin (data : string) (s : AdminStream)
| EvTick.

(** The globals once the handler for [e] has returned or thrown. *)
Definition after (e : Event) (w : World) : World :=
  match e with
  | EvClock t => set_clock t w
  | EvConnect obj =>
      if pending obj w then on_connect obj (settle (connection obj) w) else w
  | EvError obj s =>
      if owns obj w then on_error obj s (destroy (connection obj) w) else w
  | EvDestroy c => destroy c w
  | EvConnection ty => world (on_connection ty w)
  | EvMessage ty data => world (on_message ty data w)
  | EvSent bytes => on_sent bytes w
  | EvAdmin data s => (on_admin_data data s w).2
  | EvTick => world (reconnectInt w)
  end.

Definition run (es : list Event) (w : World) : World :=
  foldl (fun w e => after e w) w es.

(** Connects of the backend named [nm] that are still in flight. *)
Definition in_flight (nm : string) (w : World) : nat :=
  List.length
    (List.filter (fun h => match h with
                           | NetSocket false true o => String.eqb o nm
                           | _ => false
                           end) (handles w)).

(** *** Well-formed worlds

    What the setup code establishes about [State.servers] and every
    handler keeps: each property is keyed by the name of its instance, the
    name parses to the constructor that built the instance, the instance's
    handle is of its constructor's kind, and a datagram instance exists
    only after its constructor marked the datagram prototype available. *)

Definition parse_kind (str : string) : option Kind :=
  if Js.match_socket str then Some Stream
  else match Js.match_url str with
       | Some (ty, _, _) =>
           if String.eqb ty "tcp" then Some Stream
           else if String.eqb ty "udp" then Some Udp
           else None
       | None => None
       end.

Definition handle_ok (r : Remote) (w : World) : bool :=
  match kind r, handles w !! connection r with
  | Stream, Some (NetSocket _ _ o) => String.eqb o (name r)
  | Udp, Some DgramSocket => true
  | _, _ => false
  end.

Definition entry_ok (w : World) (e : string * Remote) : bool :=
  String.eqb e.1 (name e.2)
  && bool_decide (parse_kind (name e.2) = Some (kind e.2))
  && handle_ok e.2 w
  && (is_stream e.2 || is_available (udp_proto w)).

Definition wf (w : World) : Prop :=
  NoDup (Js.keys (State_servers w))
  /\ forallb (entry_ok w) (State_servers w) = true.

(** *** Relations between worlds used to state what a handler keeps *)

(** The world one reconnect leaves: the trace line, one more socket whose
    connect is pending, and the new instance stored under the old key. *)
Definition reconnected (i : nat) (idx : string) (r r' : Remote) (w : World)
  : World :=
  set_servers (<[i := (idx, r')]> (State_servers w))
    (set_handles (handles w ++ [NetSocket false true (name r)])
       (when (trace (Config w))
             (UDebug ("RE-" +:+ "Connecting to remote " +:+ name r)) w)).

(** What a whole tick keeps: the configuration, the statistics, both
    prototypes, the clock, and every handle that already existed. *)
Definition grown (w w' : World) : Prop :=
  Config w' = Config w /\ Stats w' = Stats w
  /\ stream_proto w' = stream_proto w /\ udp_proto w' = udp_proto w
  /\ clock w' = clock w
  /\ exists more, handles w' = (handles w ++ more)%list.

(** [r'] is a reconnect of [r]: same name, same constructor, and a handle
    created after [w] whose connect is pending in [w']. *)
Definition reconnect_of (r r' : Remote) (w w' : World) : Prop :=
  name r' = name r /\ kind r' = kind r
  /\ (List.length (handles w) <= connection r')%nat
  /\ handles w' !! connection r' = Some (NetSocket false true (name r)).

(** [w'] keeps what well-formedness of the same [State.servers] needs:
    handles keep their kind and owner, and the datagram prototype does not
    fall back to unavailable. *)
Definition keeps (w w' : World) : Prop :=
  State_servers w' = State_servers w
  /\ (forall r, handle_ok r w = true -> handle_ok r w' = true)
  /\ (is_available (udp_proto w) = true -> is_available (udp_proto w') = true).

(** How two health records may differ across a handler: either only
    [last_sent] moved, or a mark happened, which counted and stamped it. *)
Definition evolves (h h' : Health) : Prop :=
  state_changes h <= state_changes h'
  /\ (is_available h' <> is_available h \/ state_changed h' <> state_changed h ->
      state_changes h < state_changes h').

End Piped.

(** ** lib/remote_send.js *)

Module RemoteSend.

(** Calls into the logging helpers ([C._trace], [U.log], [U.error]). *)
Inductive Line :=
| CTrace (s : string)
| ULog (s : string)
| UError (s : string).

(** The object [_RemoteSend] builds.  Its methods go through [this], so
    every object carries its own fields.  [name] is left for the parent
    constructor to fill in. *)
Record t := mk {
  state_changed : Z;
  state_changes : Z;
  last_sent : option Z;
  messages : Z;
  is_available : bool;
  name : option string;
  is_stream : bool;
}.

Definition show_name (this : t) : string :=
  match name this with Some n => n | None => "undefined" end.

Definition _RemoteSend (now : Z) : t :=
  {| state_changed := now; state_changes := 0; last_sent := None;
     messages := 0; is_available := false; name := None; is_stream := false |}.

Definition mark_available (now : Z) (this : t) : t * list Line :=
  ({| state_changed := now; state_changes := state_changes this + 1;
      last_sent := last_sent this; messages := messages this;
      is_available := true; name := name this; is_stream := is_stream this |},
   [CTrace ("HEALTHY: " +:+ show_name this)]).

Definition mark_unavailable (now : Z) (this : t) : t * list Line :=
  ({| state_changed := now; state_changes := state_changes this + 1;
      last_sent := last_sent this; messages := messages this;
      is_available := false; name := name this; is_stream := is_stream this |},
   [CTrace ("UNHEALTHY: " +:+ show_name this)]).

Definition incr_stats (now : Z) (this : t) : t * list Line :=
  ({| state_changed := state_changed this; state_changes := state_changes this;
      last_sent := Some now; messages := messages this + 1;
      is_available := is_available this; name := name this;
      is_stream := is_stream this |}, []).

(** [RemoteStreamSend(name, host, port, reconnect)]: the object, before any
    event of its socket. *)
Definition RemoteStreamSend (nm : string) (now : Z) : t :=
  let obj := _RemoteSend now in
  {| state_changed := state_changed obj; state_changes := state_changes obj;
     last_sent := last_sent obj; messages := messages obj;
     is_available := is_available obj; name := Some nm; is_stream := true |}.

(** ['connect'] on its socket. *)
Definition on_connect (now : Z) (obj : t) : t * list Line :=
  let '(obj', ls) := mark_available now obj in
  (obj', ULog ("Connected to " +:+ show_name obj) :: ls).

(** ['error'] on its socket.  The handler's condition is
    [config.trace || !reconnect], and the file binds no [config] (the
    constructor's variable is [cfg]): evaluating the condition throws a
    [ReferenceError] before [reconnect] is read and before anything is
    logged.  The handler returns the object as it found it, the lines it
    logged, and the exception that leaves it. *)
Definition on_error (reconnect : bool) (e : string) (obj : t)
  : t * list Line * Js.Exn :=
  (obj, [], Js.ReferenceError "config is not defined").

(** The methods a caller can invoke on a backend, and the two socket
    events, as one alphabet of operations. *)
Inductive Op :=
| MarkAvailable
| MarkUnavailable
| IncrStats
| Connect
| Error (reconnect : bool) (e : string).

Definition step (now : Z) (o : Op) (this : t) : t :=
  match o with
  | MarkAvailable => (mark_available now this).1
  | MarkUnavailable => (mark_unavailable now this).1
  | IncrStats => (incr_stats now this).1
  | Connect => (on_connect now this).1
  | Error rc e => (on_error rc e this).1.1
  end.

(** Operations that end in one of the two marks, with the flag written. *)
Definition marks (o : Op) : option bool :=
  match o with
  | MarkAvailable | Connect => Some true
  | MarkUnavailable => Some false
  | IncrStats | Error _ _ => None
  end.

Definition is_incr_stats (o : Op) : bool :=
  match o with IncrStats => true | _ => false end.

Definition is_mark_unavailable (o : Op) : bool :=
  match o with MarkUnavailable => true | _ => false end.

(** A sequence of operations, each at its own time. *)
Definition run (ops : list (Z * Op)) (this : t) : t :=
  foldl (fun this '(now, o) => step now o this) this ops.

Definition count_marks (ops : list (Z * Op)) : Z :=
  Z.of_nat (List.length (List.filter (fun x => bool_decide (marks x.2 <> None)) ops)).

Definition count_incr_stats (ops : list (Z * Op)) : Z :=
  Z.of_nat (List.length (List.filter (fun x => is_incr_stats x.2) ops)).

End RemoteSend.

(** ** lib/admin_server.js *)

Module AdminServer.

Inductive Line :=
| CDebug (s : string)
| CDebugState
| CLog (s : string).

(** The part of the stats object the handler touches. *)
Record StatsT := mkStats {
  last : option Js.Num;
  idle : Js.Num;
  uptime : Z;
}.

Section Command.

(** The configuration object and its pretty-printer come from the
    configurator and [common] modules; [inspect] is [U.inspect]. *)
Context {ConfigT : Type}.
Variable _json_pp : ConfigT -> Js.Exn + string.
Variable inspect : Js.Exn -> string.

Definition nl : string := String "010" "".

(** [___admin_command( cmd )] with [this] resolved to its stats and config
    objects; [up] is [process.uptime()] and [now] is [C._now()]. *)
Definition ___admin_command (cmd : string) (config : ConfigT) (stats : StatsT)
    (up now : Z) : string * StatsT * list Line :=
  let idle' := if Js.truthy (last stats)
               then match last stats with
                    | Some (Js.Int l) => Js.Int (now - l)
                    | _ => Js.NaN
                    end
               else Js.Int up in
  let stats' := mkStats (last stats) idle' up in
  let pre := [CDebug ("Got admin command: " +:+ cmd)] in
  if String.eqb cmd "config" then
    match _json_pp config with
    | inr s => (s, stats', pre)
    | inl e =>
        let out := "ADMIN ERROR on '" +:+ cmd +:+ "': " +:+ inspect e in
        (out, stats', (pre ++ [CLog out])%list)
    end
  else if String.eqb cmd "ping" then ("pong", stats', pre)
  else if String.eqb cmd "__dump" then ("OK", stats', (pre ++ [CDebugState])%list)
  else
    let out := "ADMIN ERROR: UNKNOWN COMMAND " +:+ cmd +:+ nl in
    (out, stats', (pre ++ [CDebug out])%list).

(** The commands the [switch] has a [case] for. *)
Definition recognized (cmd : string) : bool :=
  String.eqb cmd "config" || String.eqb cmd "ping" || String.eqb cmd "__dump".

(** One admin connection: closed or not, and what was written to it. *)
Record Conn := mkConn {
  closed : bool;
  written : list string;
}.

Definition conn_write (s : string) (c : Conn) : Conn :=
  if closed c then c else mkConn false (written c ++ [s])%list.

(** The ['data'] handler installed on every admin connection. *)
Definition on_data (data : string) (config : ConfigT) (up now : Z)
    (st : Conn * StatsT) : Conn * StatsT :=
  let cmd := Js.trim data in
  let '(reply, stats', _) := ___admin_command cmd config st.2 up now in
  (conn_write reply st.1, stats').

End Command.

End AdminServer.

(** ** Worlds used as concrete inputs *)

Module Scenario.
Import Piped.

(** The shipped configuration, with the list of servers, the trace flag and
    the encoding left open. *)
Definition config (ss : list string) (tr : bool) (enc : string) : ConfigT :=
  mkConfig "/tmp/piped.socket" 1338 enc true tr 1337 "127.0.0.1"
           1338 "127.0.0.1" 1000 ss.

Definition A : Remote := mkRemote "tcp://a:1" Stream 0 "a" "1" None.
Definition B : Remote := mkRemote "tcp://b:2" Stream 1 "b" "2" None.
Definition U : Remote := mkRemote "udp://h:9" Udp 1 "h" "9" None.
Definition B2 : Remote := mkRemote "tcp://b:2" Stream 2 "b" "2" None.

(** One TCP backend, just configured: its connect is pending. *)
Definition one_pending (tr : bool) : World :=
  world (startup (config ["tcp://a:1"] tr "ascii") 100).

(** One TCP backend whose connect was refused. *)
Definition one_refused : World :=
  run [EvClock 101; EvError A "ECONNREFUSED"] (one_pending true).

(** One TCP backend, connected. *)
Definition one_connected : World :=
  run [EvClock 101; EvConnect A] (one_pending true).

(** Two TCP backends, both connected; then the first one's peer goes away
    and the runtime destroys that socket. *)
Definition two_streams_first_gone : World :=
  run [EvClock 101; EvConnect A; EvConnect B; EvClock 102; EvDestroy 0]
      (world (startup (config ["tcp://a:1"; "tcp://b:2"] true "ascii") 100)).

(** A TCP backend, a datagram backend and a second TCP backend; both TCP
    backends connected, then the first one's socket is destroyed. *)
Definition stream_udp_stream_first_gone : World :=
  run [EvClock 101; EvConnect A; EvConnect B2; EvClock 102; EvDestroy 0]
      (world (startup (config ["tcp://a:1"; "udp://h:9"; "tcp://b:2"]
                              true "ascii") 100)).

(** One datagram backend, under the encoding [enc]. *)
Definition one_udp (enc : string) : World :=
  world (startup (config ["udp://h:9"] true enc) 100).

Definition U0 : Remote := mkRemote "udp://h:9" Udp 0 "h" "9" None.

(** A TCP and a datagram backend, just configured. *)
Definition stream_and_udp : World :=
  world (startup (config ["tcp://a:1"; "udp://h:9"] true "ascii") 100).

(** Two TCP backends, both connected. *)
Definition two_streams_connected : World :=
  run [EvClock 101; EvConnect A; EvConnect B]
      (world (startup (config ["tcp://a:1"; "tcp://b:2"] true "ascii") 100)).

(** A TCP backend, a datagram backend and a second TCP backend; the first
    has connected, the connect of the second is still pending. *)
Definition stream_udp_stream_first_connected : World :=
  run [EvClock 101; EvConnect A]
      (world (startup (config ["tcp://a:1"; "udp://h:9"; "tcp://b:2"]
                              true "ascii") 100)).

(** A configuration that lists one server twice. *)
Definition listed_twice : ConfigT :=
  config ["tcp://a:1"; "udp://h:9"; "tcp://a:1"] true "ascii".

(** A configuration that lists one server twice and a name every plain
    object inherits. *)
Definition listed_twice_and_inherited : ConfigT :=
  config ["tcp://a:1"; "toString"; "udp://h:9"; "tcp://a:1"] true "ascii".

(** A lib backend that has connected. *)
Definition lib_connected : RemoteSend.t :=
  (RemoteSend.on_connect 101 (RemoteSend.RemoteStreamSend "tcp://a:1" 100)).1.

End Scenario.

(** ** Facts about the monolith *)

Module PipedFacts.
Import Piped.

Ltac break_world :=
  repeat match goal with
         | k : Kind |- _ => destruct k
         | w : World |- _ => destruct w
         end; simpl in *.

(** *** The health fields and the three methods that write them *)

Lemma proto_set_proto_eq k h w : proto k (set_proto k h w) = h.
Proof. by break_world. Qed.

Lemma proto_set_proto_ne k k' h w :
  k <> k' -> proto k' (set_proto k h w) = proto k' w.
Proof. by break_world. Qed.

Lemma health_mark_available r w :
  health r (mark_available r w)
  = mkHealth true (_now w) (state_changes (health r w) + 1)
             (last_sent (health r w)).
Proof. unfold health, mark_available. by rewrite proto_set_proto_eq. Qed.

Lemma health_mark_unavailable r w :
  health r (mark_unavailable r w)
  = mkHealth false (_now w) (state_changes (health r w) + 1)
             (last_sent (health r w)).
Proof. unfold health, mark_unavailable. by rewrite proto_set_proto_eq. Qed.

Lemma health_incr_stats r w :
  health r (incr_stats r w)
  = mkHealth (is_available (health r w)) (state_changed (health r w))
             (state_changes (health r w)) (Some (_now w)).
Proof. unfold health, incr_stats. by rewrite proto_set_proto_eq. Qed.

(** A write through one instance is seen through every instance of the
    same constructor, and through none of the other. *)
Lemma health_shared r r' w f :
  kind r = kind r' ->
  health r' (set_proto (kind r) f w) = f.
Proof. intros ->. apply proto_set_proto_eq. Qed.

Lemma health_other_kind r r' w f :
  kind r <> kind r' ->
  health r' (set_proto (kind r) f w) = health r' w.
Proof. intros. by apply proto_set_proto_ne. Qed.

Lemma evolves_refl h : evolves h h.
Proof. split; [lia | intros [?|?]; congruence]. Qed.

Lemma evolves_trans h1 h2 h3 :
  evolves h1 h2 -> evolves h2 h3 -> evolves h1 h3.
Proof.
  intros [H1 H1'] [H2 H2']. split; [lia|]. intros Hd.
  destruct (decide (is_available h2 = is_available h1 /\
                    state_changed h2 = state_changed h1)) as [[E1 E2]|N].
  - rewrite <- E1, <- E2 in Hd. specialize (H2' Hd). lia.
  - assert (state_changes h1 < state_changes h2); [|lia].
    apply H1'. destruct (decide (is_available h2 = is_available h1)); [|by left].
    right. intros ?. by apply N.
Qed.

Lemma evolves_mark_available r k w :
  evolves (proto k w) (proto k (mark_available r w)).
Proof.
  destruct (decide (kind r = k)) as [<-|N].
  - fold (health r w). fold (health r (mark_available r w)).
    rewrite health_mark_available. split; simpl; intros; lia.
  - unfold mark_available. rewrite proto_set_proto_ne by done. apply evolves_refl.
Qed.

Lemma evolves_mark_unavailable r k w :
  evolves (proto k w) (proto k (mark_unavailable r w)).
Proof.
  destruct (decide (kind r = k)) as [<-|N].
  - fold (health r w). fold (health r (mark_unavailable r w)).
    rewrite health_mark_unavailable. split; simpl; intros; lia.
  - unfold mark_unavailable. rewrite proto_set_proto_ne by done. apply evolves_refl.
Qed.

Lemma evolves_incr_stats r k w :
  evolves (proto k w) (proto k (incr_stats r w)).
Proof.
  destruct (decide (kind r = k)) as [<-|N].
  - fold (health r w). fold (health r (incr_stats r w)).
    rewrite health_incr_stats. split; simpl; [lia|]. intros [?|?]; congruence.
  - unfold incr_stats. rewrite proto_set_proto_ne by done. apply evolves_refl.
Qed.

(** Printing, the listener's bookkeeping and the handle table do not touch
    the prototypes. *)
Lemma proto_print k l w : proto k (print l w) = proto k w.
Proof. by break_world. Qed.

Lemma proto_when k b l w : proto k (when b l w) = proto k w.
Proof. destruct b; [apply proto_print | done]. Qed.

Lemma proto_set_stats k s w : proto k (set_stats s w) = proto k w.
Proof. by break_world. Qed.

Lemma proto_set_handles k hs w : proto k (set_handles hs w) = proto k w.
Proof. by break_world. Qed.

Lemma proto_set_servers k s w : proto k (set_servers s w) = proto k w.
Proof. by break_world. Qed.

Lemma proto_set_clock k t w : proto k (set_clock t w) = proto k w.
Proof. by break_world. Qed.

Lemma proto_listen_incr_stats k ty w : proto k (listen_incr_stats ty w) = proto k w.
Proof. apply proto_set_stats. Qed.

Lemma proto_settle k c w : proto k (settle c w) = proto k w.
Proof.
  unfold settle. destruct (handles w !! c) as [[]|]; auto using proto_set_handles.
Qed.

Lemma proto_destroy k c w : proto k (destroy c w) = proto k w.
Proof.
  unfold destroy. destruct (handles w !! c) as [[]|]; auto using proto_set_handles.
Qed.

(** *** The selector *)

Lemma same_env_refl w : same_env w w.
Proof. by repeat split. Qed.

Lemma same_env_trans w1 w2 w3 : same_env w1 w2 -> same_env w2 w3 -> same_env w1 w3.
Proof. unfold same_env. intros (?&?&?&?&?) (?&?&?&?&?). repeat split; congruence. Qed.

Lemma same_env_print l w : same_env w (print l w).
Proof. by destruct w. Qed.

Lemma same_env_when b l w : same_env w (when b l w).
Proof. destruct b; [apply same_env_print | apply same_env_refl]. Qed.

Lemma same_env_set_proto k h w : same_env w (set_proto k h w).
Proof. by destruct w, k. Qed.

Lemma same_env_mark_unavailable r w : same_env w (mark_unavailable r w).
Proof. apply same_env_set_proto. Qed.

Lemma is_usable_same_env r w w' :
  same_env w w' -> health r w' = health r w -> is_usable r w' = is_usable r w.
Proof. intros (_&_&_&Hh&_) Hp. unfold is_usable. by rewrite Hh, Hp. Qed.

Lemma _available_server_cons idx remote rest w :
  _available_server ((idx, remote) :: rest) w
  = if is_usable remote w
    then (Some remote,
          when (debug (Config w))
               (UDebug ("Attempting to use '" +:+ name remote +:+ "'")) w)
    else _available_server rest (scan_step remote w).
Proof.
  simpl. unfold scan_step, is_usable.
  set (w1 := when _ _ w).
  assert (E : same_env w w1) by apply same_env_when.
  assert (P : health remote w1 = health remote w) by apply proto_when.
  destruct E as (_&_&_&Hh&_). rewrite P, Hh.
  destruct (is_available (health remote w)); simpl; [|done].
  by destruct (destroyed _).
Qed.

Lemma same_env_scan_step r w : same_env w (scan_step r w).
Proof.
  unfold scan_step. set (w1 := when _ _ w).
  assert (same_env w w1) by apply same_env_when.
  destruct (negb _); [done|]. destruct (destroyed _); [|done].
  eapply same_env_trans; [done|].
  eapply same_env_trans; [apply same_env_print | apply same_env_mark_unavailable].
Qed.

Lemma evolves_scan_step r k w : evolves (proto k w) (proto k (scan_step r w)).
Proof.
  unfold scan_step. set (w1 := when _ _ w).
  assert (P : proto k w1 = proto k w) by apply proto_when.
  destruct (negb _); [rewrite P; apply evolves_refl|].
  destruct (destroyed _); [|rewrite P; apply evolves_refl].
  rewrite <- P, <- (proto_print k (UError ("Server " +:+ name r +:+
    " unavailable - marking for reconnect")) w1).
  apply evolves_mark_unavailable.
Qed.

(** A step never makes a flag true and never writes [last_sent]. *)
Lemma scan_step_down r k w :
  (is_available (proto k (scan_step r w)) = true -> is_available (proto k w) = true)
  /\ last_sent (proto k (scan_step r w)) = last_sent (proto k w).
Proof.
  unfold scan_step. set (w1 := when _ _ w).
  assert (P : proto k w1 = proto k w) by apply proto_when.
  destruct (negb _); [by rewrite P|].
  destruct (destroyed _); [|by rewrite P].
  set (w2 := print _ w1).
  assert (P2 : forall k, proto k w2 = proto k w1) by (intros; apply proto_print).
  destruct (decide (kind r = k)) as [<-|N].
  - fold (health r (mark_unavailable r w2)). rewrite health_mark_unavailable.
    simpl. split; [done|]. unfold health. by rewrite P2, P.
  - unfold mark_unavailable. rewrite proto_set_proto_ne by done. by rewrite P2, P.
Qed.

Lemma scan_step_usable_down r r' w :
  is_usable r' (scan_step r w) = true -> is_usable r' w = true.
Proof.
  unfold is_usable. destruct (same_env_scan_step r w) as (_&_&_&->&_).
  intros [Ha ->]%andb_true_iff. rewrite andb_true_r.
  by apply (scan_step_down r (kind r') w).
Qed.

Lemma _available_server_same_env servers w :
  same_env w (_available_server servers w).2.
Proof.
  revert w. induction servers as [|[idx r] rest IH]; intros w.
  - apply same_env_print.
  - rewrite _available_server_cons. destruct (is_usable r w); simpl.
    + apply same_env_when.
    + eapply same_env_trans; [apply same_env_scan_step | apply IH].
Qed.

Lemma _available_server_evolves servers k w :
  evolves (proto k w) (proto k (_available_server servers w).2).
Proof.
  revert w. induction servers as [|[idx r] rest IH]; intros w.
  - simpl. rewrite proto_print. apply evolves_refl.
  - rewrite _available_server_cons. destruct (is_usable r w); simpl.
    + rewrite proto_when. apply evolves_refl.
    + eapply evolves_trans; [apply evolves_scan_step | apply IH].
Qed.

Lemma _available_server_down servers k w :
  (is_available (proto k (_available_server servers w).2) = true ->
   is_available (proto k w) = true)
  /\ last_sent (proto k (_available_server servers w).2) = last_sent (proto k w).
Proof.
  revert w. induction servers as [|[idx r] rest IH]; intros w.
  - simpl. by rewrite proto_print.
  - rewrite _available_server_cons. destruct (is_usable r w); simpl.
    + by rewrite proto_when.
    + destruct (IH (scan_step r w)) as [I1 I2].
      destruct (scan_step_down r k w) as [S1 S2]. split; [auto | congruence].
Qed.

Lemma is_usable_down servers r w :
  is_usable r (_available_server servers w).2 = true -> is_usable r w = true.
Proof.
  unfold is_usable.
  destruct (_available_server_same_env servers w) as (_&_&_&->&_).
  intros [Ha ->]%andb_true_iff. rewrite andb_true_r.
  by apply (_available_server_down servers (kind r) w).
Qed.

(** A backend examined with a destroyed handle reads unavailable once the
    step is over, whether the step marked it or found it so. *)
Lemma scan_step_destroyed r w :
  destroyed (handles w !! connection r) = true ->
  is_available (health r (scan_step r w)) = false.
Proof.
  intros Hd. unfold scan_step.
  remember (when (debug (Config w))
                 (UDebug ("Attempting to use '" +:+ name r +:+ "'")) w) as w1 eqn:E.
  assert (P : health r w1 = health r w) by (subst w1; apply proto_when).
  assert (Hh : handles w1 = handles w).
  { subst w1. by destruct (same_env_when (debug (Config w))
      (UDebug ("Attempting to use '" +:+ name r +:+ "'")) w) as (_&_&_&->&_). }
  clear E. rewrite Hh, Hd.
  destruct (is_available (health r w1)) eqn:Ha; cbn [negb]; [|done].
  by rewrite health_mark_unavailable.
Qed.

(** The scan reaches a backend when none before it is usable; if the
    backend's handle is destroyed by then, it reads unavailable when the
    selector returns. *)
Lemma _available_server_demotes (pre : Js.Obj Remote) idx r post w :
  Forall (fun x => is_usable x.2 w = false) pre ->
  destroyed (handles w !! connection r) = true ->
  is_available
    (health r (_available_server (pre ++ (idx, r) :: post)%list w).2) = false.
Proof.
  revert w. induction pre as [|[i0 r0] pre IH]; intros w Hpre Hd.
  - change (([] : Js.Obj Remote) ++ (idx, r) :: post)%list with ((idx, r) :: post).
    rewrite _available_server_cons.
    assert (Hu : is_usable r w = false).
    { unfold is_usable. rewrite Hd. apply andb_false_r. }
    rewrite Hu. apply not_true_is_false. intros Ht.
    apply (_available_server_down post (kind r)) in Ht.
    fold (health r (scan_step r w)) in Ht.
    by rewrite scan_step_destroyed in Ht.
  - apply Forall_cons in Hpre as [Hu Hpre]. simpl in Hu.
    change (((i0, r0) :: pre) ++ (idx, r) :: post)%list
      with ((i0, r0) :: (pre ++ (idx, r) :: post)%list).
    rewrite _available_server_cons, Hu. apply IH.
    + eapply Forall_impl; [exact Hpre|]. intros x Hx. simpl in *.
      apply not_true_is_false. intros Ht.
      apply scan_step_usable_down in Ht. congruence.
    + by destruct (same_env_scan_step r0 w) as (_&_&_&->&_).
Qed.

(** What the selector does return: the first backend, in order, that is
    usable in the world the scan leaves behind; and [None] exactly when no
    backend is usable there. *)
Lemma _available_server_Some servers w r :
  (_available_server servers w).1 = Some r ->
  exists (pre : Js.Obj Remote) idx post,
    servers = (pre ++ (idx, r) :: post)%list
    /\ is_usable r (_available_server servers w).2 = true
    /\ is_usable r w = true
    /\ Forall (fun e => is_usable e.2 (_available_server servers w).2 = false) pre.
Proof.
  revert w. induction servers as [|[idx r0] rest IH]; intros w; [done|].
  rewrite _available_server_cons. destruct (is_usable r0 w) eqn:E; simpl.
  - intros [= <-]. exists [], idx, rest. split_and!; [done| |done|constructor].
    rewrite <- E. apply is_usable_same_env; [apply same_env_when | apply proto_when].
  - intros H. destruct (IH _ H) as (pre & idx' & post & -> & U1 & U2 & F).
    exists ((idx, r0) :: pre), idx', post. split_and!; [done|done| |].
    + by eapply scan_step_usable_down.
    + constructor; [|done]. simpl.
      apply not_true_is_false. intros E'.
      apply is_usable_down, scan_step_usable_down in E'. congruence.
Qed.

Lemma _available_server_None servers w :
  (_available_server servers w).1 = None ->
  Forall (fun e => is_usable e.2 (_available_server servers w).2 = false) servers.
Proof.
  revert w. induction servers as [|[idx r0] rest IH]; intros w; [constructor|].
  rewrite _available_server_cons. destruct (is_usable r0 w) eqn:E; simpl; [done|].
  intros H. constructor; [|by apply IH]. simpl.
  apply not_true_is_false. intros E'.
  apply is_usable_down, scan_step_usable_down in E'. congruence.
Qed.

(** When the first usable backend is also the first of its constructor in
    the set, no earlier scan step can have touched its flag, and the
    selector returns it. *)
Lemma _available_server_first_of_kind (pre : Js.Obj Remote) idx r post w :
  is_usable r w = true ->
  Forall (fun e => kind e.2 <> kind r /\ is_usable e.2 w = false) pre ->
  (_available_server (pre ++ (idx, r) :: post)%list w).1 = Some r.
Proof.
  revert w. induction pre as [|[i0 r0] pre IH]; intros w Hu Hpre; simpl app.
  - rewrite _available_server_cons, Hu. done.
  - apply Forall_cons in Hpre as [[Hk Hn] Hpre]. simpl in Hk, Hn.
    rewrite _available_server_cons, Hn. apply IH.
    + rewrite <- Hu. apply is_usable_same_env; [apply same_env_scan_step|].
      unfold health, scan_step. set (w1 := when _ _ w).
      assert (P : proto (kind r) w1 = proto (kind r) w) by apply proto_when.
      destruct (negb _); [done|]. destruct (destroyed _); [|done].
      unfold mark_unavailable. rewrite proto_set_proto_ne by done.
      by rewrite proto_print.
    + eapply Forall_impl; [exact Hpre|]. intros [i1 r1] [? Hf]. split; [done|].
      simpl in *. apply not_true_is_false. intros Ht.
      apply scan_step_usable_down in Ht. congruence.
Qed.

(** *** Connecting *)

Lemma _connect_to_server_spec str (rc : bool) w :
  let w1 := when (trace (Config w))
                 (UDebug ((if rc then "RE-" else "") +:+
                          "Connecting to remote " +:+ str)) w in
  match parse_kind str with
  | Some Stream =>
      exists h p,
        _connect_to_server str rc w
        = Ret (mkRemote str Stream (List.length (handles w)) h p None)
              (set_handles (handles w ++ [NetSocket false true str]) w1)
  | Some Udp =>
      exists h p,
        let r := mkRemote str Udp (List.length (handles w)) h p None in
        _connect_to_server str rc w
        = Ret r (mark_available r (set_handles (handles w ++ [DgramSocket]) w1))
  | None => exists e, _connect_to_server str rc w = Raise e w1
  end.
Proof.
  intros w1. unfold parse_kind, _connect_to_server. fold w1.
  assert (Hh : handles w1 = handles w) by (unfold w1, when; by destruct (trace _), w).
  unfold RemoteStreamConnect, RemoteUDPConnect, alloc. rewrite Hh.
  destruct (Js.match_socket str); [by do 2 eexists|].
  destruct (Js.match_url str) as [[[ty h] p]|]; [|by eexists].
  destruct (String.eqb ty "tcp"); [by do 2 eexists|].
  destruct (String.eqb ty "udp"); [by do 2 eexists|by eexists].
Qed.

Lemma _connect_to_server_evolves str rc k w :
  evolves (proto k w) (proto k (world (_connect_to_server str rc w))).
Proof.
  pose proof (_connect_to_server_spec str rc w) as H. simpl in H.
  destruct (parse_kind str) as [[]|].
  - destruct H as (h & p & ->). simpl.
    rewrite proto_set_handles, proto_when. apply evolves_refl.
  - destruct H as (h & p & ->). simpl.
    eapply evolves_trans; [|apply evolves_mark_available].
    rewrite proto_set_handles, proto_when. apply evolves_refl.
  - destruct H as (e & ->). simpl. rewrite proto_when. apply evolves_refl.
Qed.

Lemma reconnect_loop_cons idx rest w :
  reconnect_loop (idx :: rest) w
  = match reconnect_body idx w with
    | Ret _ w' => reconnect_loop rest w'
    | Raise e w' => Raise e w'
    end.
Proof.
  simpl. unfold reconnect_body. destruct (Js.get idx _); [|done].
  destruct (negb _); [|done]. by destruct (_connect_to_server _ _ _).
Qed.

Lemma reconnect_body_evolves idx k w :
  evolves (proto k w) (proto k (world (reconnect_body idx w))).
Proof.
  unfold reconnect_body. destruct (Js.get idx _); [|apply evolves_refl].
  destruct (negb _); [|apply evolves_refl].
  pose proof (_connect_to_server_evolves (name r) true k w) as H.
  destruct (_connect_to_server _ _ _); simpl in *; [|done].
  by rewrite proto_set_servers.
Qed.

Lemma reconnect_loop_evolves idxs k w :
  evolves (proto k w) (proto k (world (reconnect_loop idxs w))).
Proof.
  revert w. induction idxs as [|idx rest IH]; intros w; [apply evolves_refl|].
  rewrite reconnect_loop_cons.
  pose proof (reconnect_body_evolves idx k w) as H.
  destruct (reconnect_body idx w); simpl in *; [|done].
  eapply evolves_trans; [exact H | apply IH].
Qed.

(** *** Every handler

    Across any event at all, each prototype's [state_changes] never goes
    down, and its flag or stamp can only differ if the counter went up. *)
Lemma on_connection_evolves ty k w :
  evolves (proto k w) (proto k (world (on_connection ty w))).
Proof.
  unfold on_connection.
  pose proof (_available_server_evolves (State_servers w) k w) as H.
  destruct (_available_server _ _) as [[r|] w1]; simpl in *.
  - eapply evolves_trans; [exact H|].
    assert (evolves (proto k w1)
              (proto k (incr_stats r (listen_incr_stats ty w1)))).
    { rewrite <- (proto_listen_incr_stats k ty w1). apply evolves_incr_stats. }
    destruct (is_stream r); simpl; by rewrite proto_when.
  - by rewrite proto_listen_incr_stats.
Qed.

Lemma ___admin_command_proto cmd k w :
  proto k (___admin_command cmd w).2 = proto k w.
Proof.
  unfold ___admin_command.
  repeat match goal with
         | |- context [if ?b then _ else _] => destruct b
         end; simpl;
    rewrite ?proto_print, ?proto_set_stats, ?proto_when; done.
Qed.

Lemma after_evolves e k w : evolves (proto k w) (proto k (after e w)).
Proof.
  destruct e; simpl.
  - rewrite proto_set_clock. apply evolves_refl.
  - destruct (pending _ _); [|apply evolves_refl].
    unfold on_connect.
    eapply evolves_trans; [|apply evolves_mark_available].
    rewrite proto_print, proto_settle. apply evolves_refl.
  - destruct (owns _ _); [|apply evolves_refl].
    unfold on_error.
    eapply evolves_trans; [|apply evolves_mark_unavailable].
    rewrite proto_when, proto_destroy. apply evolves_refl.
  - rewrite proto_destroy. apply evolves_refl.
  - apply on_connection_evolves.
  - rewrite proto_listen_incr_stats. apply evolves_refl.
  - unfold on_sent. rewrite proto_print. apply evolves_refl.
  - unfold on_admin_data.
    destruct (___admin_command _ _) as [reply w'] eqn:E. simpl.
    change w' with ((reply, w').2). rewrite <- E.
    rewrite ___admin_command_proto, proto_set_stats. apply evolves_refl.
  - apply reconnect_loop_evolves.
Qed.

Lemma run_evolves es k w : evolves (proto k w) (proto k (run es w)).
Proof.
  revert w. induction es as [|e es IH]; intros w; [apply evolves_refl|].
  simpl. eapply evolves_trans; [apply after_evolves | apply IH].
Qed.

(** *** Objects used as maps *)

Lemma get_lookup {V} (o : Js.Obj V) i k v :
  NoDup (Js.keys o) -> o !! i = Some (k, v) -> Js.get k o = Some v.
Proof.
  revert i. induction o as [|[k' v'] o IH]; intros i Hnd Hi; [done|].
  apply NoDup_cons in Hnd as [Hk Hnd]. simpl.
  destruct i as [|i]; simpl in Hi.
  - injection Hi as -> ->. by rewrite String.eqb_refl.
  - destruct (String.eqb_spec k k') as [->|]; [|by eapply IH].
    exfalso. apply Hk. apply list_elem_of_fmap. exists (k', v). split; [done|].
    by eapply list_elem_of_lookup_2.
Qed.

Lemma set_lookup {V} (o : Js.Obj V) i k v v' :
  NoDup (Js.keys o) -> o !! i = Some (k, v) -> Js.set k v' o = <[i := (k, v')]> o.
Proof.
  revert i. induction o as [|[k0 v0] o IH]; intros i Hnd Hi; [done|].
  apply NoDup_cons in Hnd as [Hk Hnd]. simpl.
  destruct i as [|i]; simpl in Hi.
  - injection Hi as -> ->. by rewrite String.eqb_refl.
  - destruct (String.eqb_spec k k0) as [->|]; [|simpl; f_equal; by eapply IH].
    exfalso. apply Hk. apply list_elem_of_fmap. exists (k0, v). split; [done|].
    by eapply list_elem_of_lookup_2.
Qed.

Lemma keys_insert {V} (o : Js.Obj V) i k v v' :
  o !! i = Some (k, v) -> Js.keys (<[i := (k, v')]> o) = Js.keys o.
Proof.
  intros Hi. unfold Js.keys, Js.Obj in *. rewrite list_fmap_insert. simpl.
  apply list_insert_id. by rewrite list_lookup_fmap, Hi.
Qed.

Lemma forallb_Forall {A} (f : A -> bool) l :
  forallb f l = true <-> Forall (fun x => f x = true) l.
Proof.
  induction l as [|x l IH]; simpl; [by split; [constructor|]|].
  rewrite andb_true_iff, IH, Forall_cons. done.
Qed.

(** *** The reconnect interval on a well-formed world *)

Lemma wf_entry w i idx r :
  wf w -> State_servers w !! i = Some (idx, r) ->
  idx = name r
  /\ parse_kind (name r) = Some (kind r)
  /\ handle_ok r w = true
  /\ (is_stream r = true \/ is_available (udp_proto w) = true).
Proof.
  intros [_ Hall] Hi. apply forallb_Forall in Hall.
  eapply Forall_lookup_1 in Hall; [|exact Hi]. unfold entry_ok in Hall. simpl in Hall.
  apply andb_true_iff in Hall as [[[H1 H2]%andb_true_iff H3]%andb_true_iff H4].
  apply String.eqb_eq in H1. apply bool_decide_eq_true in H2.
  apply orb_true_iff in H4. done.
Qed.

(** Only a stream backend can read unavailable. *)
Lemma wf_unavailable_stream w i idx r :
  wf w -> State_servers w !! i = Some (idx, r) ->
  is_available (health r w) = false -> kind r = Stream.
Proof.
  intros Hwf Hi Hu. destruct (wf_entry _ _ _ _ Hwf Hi) as (_&_&_&[H|H]).
  - unfold is_stream in H. by destruct (kind r).
  - unfold health in Hu. destruct (kind r); [done|]. simpl in Hu. congruence.
Qed.

Lemma reconnect_body_available w i idx r :
  wf w -> State_servers w !! i = Some (idx, r) ->
  is_available (health r w) = true ->
  reconnect_body idx w = Ret tt w.
Proof.
  intros [Hnd _] Hi Ha. unfold reconnect_body.
  by rewrite (get_lookup _ _ _ _ Hnd Hi), Ha.
Qed.

Lemma reconnect_body_unavailable w i idx r :
  wf w -> State_servers w !! i = Some (idx, r) ->
  is_available (health r w) = false ->
  exists h p,
    reconnect_body idx w
    = Ret tt (reconnected i idx r
                (mkRemote (name r) Stream (List.length (handles w)) h p None) w).
Proof.
  intros Hwf Hi Hu. pose proof (wf_unavailable_stream _ _ _ _ Hwf Hi Hu) as Hk.
  destruct (wf_entry _ _ _ _ Hwf Hi) as (_ & Hp & _). destruct Hwf as [Hnd _].
  unfold reconnect_body. rewrite (get_lookup _ _ _ _ Hnd Hi), Hu. simpl.
  pose proof (_connect_to_server_spec (name r) true w) as Hc. simpl in Hc.
  rewrite Hp, Hk in Hc. destruct Hc as (h & p & ->). exists h, p.
  unfold reconnected. f_equal.
  set (w1 := when _ _ w).
  assert (Hs : State_servers (set_handles (handles w ++ [NetSocket false true (name r)]) w1)
               = State_servers w).
  { unfold w1, when. by destruct (trace _), w. }
  rewrite Hs. by rewrite (set_lookup _ _ _ _ _ Hnd Hi).
Qed.

Lemma reconnected_fields i idx r r' w :
  Config (reconnected i idx r r' w) = Config w
  /\ Stats (reconnected i idx r r' w) = Stats w
  /\ stream_proto (reconnected i idx r r' w) = stream_proto w
  /\ udp_proto (reconnected i idx r r' w) = udp_proto w
  /\ clock (reconnected i idx r r' w) = clock w
  /\ handles (reconnected i idx r r' w)
     = (handles w ++ [NetSocket false true (name r)])%list
  /\ State_servers (reconnected i idx r r' w)
     = <[i := (idx, r')]> (State_servers w).
Proof. unfold reconnected, when. by destruct (trace _), w. Qed.

Lemma handle_ok_grow r w w' more :
  handles w' = (handles w ++ more)%list ->
  handle_ok r w = true -> handle_ok r w' = true.
Proof.
  unfold handle_ok. intros ->.
  destruct (handles w !! connection r) as [h|] eqn:E.
  - by rewrite (lookup_app_l_Some _ _ _ _ E).
  - by destruct (kind r).
Qed.

Lemma reconnected_wf i idx r h p w :
  wf w -> State_servers w !! i = Some (idx, r) -> kind r = Stream ->
  wf (reconnected i idx r
        (mkRemote (name r) Stream (List.length (handles w)) h p None) w).
Proof.
  intros Hwf Hi Hk. destruct (wf_entry _ _ _ _ Hwf Hi) as (Hidx & Hp & _).
  destruct Hwf as [Hnd Hall].
  set (r' := mkRemote _ _ _ _ _ _).
  destruct (reconnected_fields i idx r r' w) as (_&_&_&Hu&_&Hh&Hs).
  remember (reconnected i idx r r' w) as w' eqn:Ew'. clear Ew'.
  split.
  - rewrite Hs. by erewrite keys_insert.
  - apply forallb_Forall. rewrite Hs. apply Forall_insert.
    + apply forallb_Forall in Hall. eapply Forall_impl; [exact Hall|].
      intros [k v]. unfold entry_ok. simpl. rewrite Hu.
      intros [[H12 H3]%andb_true_iff H4]%andb_true_iff.
      rewrite H12, H4, (handle_ok_grow v w w' _ Hh H3). done.
    + unfold entry_ok, handle_ok. simpl. rewrite Hh.
      rewrite Hidx, String.eqb_refl. rewrite Hk in Hp.
      rewrite (bool_decide_eq_true_2 _ Hp). simpl.
      rewrite lookup_app_r by lia. rewrite Nat.sub_diag. simpl.
      by rewrite String.eqb_refl.
Qed.

Lemma grown_refl w : grown w w.
Proof. repeat split; try done. exists []. by rewrite app_nil_r. Qed.

Lemma grown_trans w1 w2 w3 : grown w1 w2 -> grown w2 w3 -> grown w1 w3.
Proof.
  intros (?&?&?&?&?&m1&E1) (?&?&?&?&?&m2&E2).
  repeat split; try congruence. exists (m1 ++ m2)%list.
  by rewrite E2, E1, <- app_assoc.
Qed.

Lemma grown_reconnected i idx r r' w : grown w (reconnected i idx r r' w).
Proof.
  destruct (reconnected_fields i idx r r' w) as (?&?&?&?&?&?&?).
  repeat split; try done. by eexists.
Qed.

Lemma grown_health r w w' : grown w w' -> health r w' = health r w.
Proof. intros (_&_&Hs&Hu&_). unfold health, proto. by destruct (kind r). Qed.

Lemma grown_lookup w w' c h :
  grown w w' -> handles w !! c = Some h -> handles w' !! c = Some h.
Proof. intros (_&_&_&_&_&m&->) H. by apply lookup_app_l_Some. Qed.

Lemma grown_length w w' :
  grown w w' -> (List.length (handles w) <= List.length (handles w'))%nat.
Proof. intros (_&_&_&_&_&m&->). rewrite length_app. lia. Qed.

Lemma key_unique {V} (o : Js.Obj V) i j k v v' :
  NoDup (Js.keys o) -> o !! i = Some (k, v) -> o !! j = Some (k, v') -> i = j.
Proof.
  unfold Js.keys, Js.Obj in *. intros Hnd Hi Hj.
  eapply NoDup_lookup; [exact Hnd| |]; rewrite list_lookup_fmap.
  - by rewrite Hi.
  - by rewrite Hj.
Qed.

Lemma key_lookup {V} (o : Js.Obj V) k :
  k ∈ Js.keys o -> exists i v, o !! i = Some (k, v).
Proof.
  intros [[k' v] [-> Hin]]%list_elem_of_fmap.
  apply list_elem_of_lookup in Hin as [i Hi]. by exists i, v.
Qed.

(** The loop over any duplicate-free selection of the keys: it returns, keeps
    the world well formed, leaves alone every slot that reads available or
    is not selected, and reconnects every selected slot that reads
    unavailable. *)
Lemma reconnect_loop_wf idxs w :
  wf w -> NoDup idxs -> (forall k, k ∈ idxs -> k ∈ Js.keys (State_servers w)) ->
  exists w',
    reconnect_loop idxs w = Ret tt w' /\ wf w' /\ grown w w'
    /\ Js.keys (State_servers w') = Js.keys (State_servers w)
    /\ forall i idx r,
        State_servers w !! i = Some (idx, r) ->
        (is_available (health r w) = true \/ idx ∉ idxs ->
         State_servers w' !! i = Some (idx, r))
        /\ (is_available (health r w) = false -> idx ∈ idxs ->
            exists r', State_servers w' !! i = Some (idx, r')
                       /\ reconnect_of r r' w w').
Proof.
  revert w. induction idxs as [|idx0 rest IH]; intros w Hwf Hnd Hsub.
  { exists w. split_and!; [done|done|apply grown_refl|done|].
    intros i idx r Hi. split; [done|]. intros _ Hin. by apply elem_of_nil in Hin. }
  apply NoDup_cons in Hnd as [Hfresh Hnd].
  destruct (key_lookup _ _ (Hsub idx0 ltac:(left))) as (i0 & r0 & Hi0).
  rewrite reconnect_loop_cons.
  destruct (is_available (health r0 w)) eqn:Ha.
  - (* the slot reads available: nothing happens *)
    rewrite (reconnect_body_available _ _ _ _ Hwf Hi0 Ha).
    destruct (IH w Hwf Hnd) as (w' & Hr & Hwf' & Hg & Hk & Hslots).
    { intros k Hk. apply Hsub. by right. }
    exists w'. split_and!; try done. intros i idx r Hi.
    destruct (Hslots i idx r Hi) as [Hkeep Hnew]. split.
    + intros [Hav|Hni]; [by apply Hkeep; left|].
      apply Hkeep. right. intros ?. apply Hni. by right.
    + intros Hu [->|Hin]%elem_of_cons; [|by apply Hnew].
      destruct Hwf as [Hnd0 _].
      pose proof (key_unique _ _ _ _ _ _ Hnd0 Hi Hi0) as ->.
      rewrite Hi0 in Hi. injection Hi as <-. congruence.
  - (* the slot reads unavailable: it is reconnected *)
    destruct (reconnect_body_unavailable _ _ _ _ Hwf Hi0 Ha) as (h & p & ->).
    set (r0' := mkRemote (name r0) Stream (List.length (handles w)) h p None).
    pose proof (wf_unavailable_stream _ _ _ _ Hwf Hi0 Ha) as Hk0.
    pose proof (reconnected_wf i0 idx0 r0 h p w Hwf Hi0 Hk0) as Hwf1.
    pose proof (grown_reconnected i0 idx0 r0 r0' w) as Hg1.
    destruct (reconnected_fields i0 idx0 r0 r0' w) as (_&_&_&_&_&Hh1&Hs1).
    fold r0' in Hwf1.
    remember (reconnected i0 idx0 r0 r0' w) as w1 eqn:Ew1. clear Ew1.
    assert (Hk1 : Js.keys (State_servers w1) = Js.keys (State_servers w)).
    { rewrite Hs1. by erewrite keys_insert. }
    destruct (IH w1 Hwf1 Hnd) as (w' & Hr & Hwf' & Hg & Hk & Hslots).
    { intros k Hin. rewrite Hk1. apply Hsub. by right. }
    exists w'. split_and!; [done|done|by eapply grown_trans|congruence|].
    intros i idx r Hi. destruct Hwf as [Hnd0 Hall0].
    destruct (decide (i = i0)) as [->|Hne].
    + rewrite Hi0 in Hi. injection Hi as <- <-.
      assert (Hi1 : State_servers w1 !! i0 = Some (idx0, r0')).
      { rewrite Hs1. apply list_lookup_insert_eq. by eapply lookup_lt_Some. }
      destruct (Hslots i0 idx0 r0' Hi1) as [Hkeep _]. split.
      * intros [?|Hni]; [congruence|]. exfalso. apply Hni. by left.
      * intros _ _. exists r0'. split; [apply Hkeep; by right|].
        split_and!; [done|by rewrite Hk0|done|].
        eapply grown_lookup; [exact Hg|]. rewrite Hh1.
        rewrite lookup_app_r by (simpl; lia). simpl. by rewrite Nat.sub_diag.
    + assert (Hi1 : State_servers w1 !! i = Some (idx, r)).
      { rewrite Hs1, <- Hi. by apply list_lookup_insert_ne. }
      assert (Hidx : idx <> idx0).
      { intros ->. apply Hne. by eapply key_unique. }
      destruct (Hslots i idx r Hi1) as [Hkeep Hnew].
      rewrite (grown_health r w w1 Hg1) in Hkeep, Hnew. split.
      * intros [?|Hni]; [by apply Hkeep; left|].
        apply Hkeep. right. intros ?. apply Hni. by right.
      * intros Hu [?|Hin]%elem_of_cons; [done|].
        destruct (Hnew Hu Hin) as (r' & Hr' & Hn & Hkd & Hlen & Hlk).
        exists r'. split; [done|]. split_and!; try done.
        pose proof (grown_length _ _ Hg1). lia.
Qed.

(** The tick itself. *)
Lemma reconnectInt_wf w :
  wf w ->
  exists w',
    reconnectInt w = Ret tt w' /\ wf w' /\ grown w w'
    /\ Js.keys (State_servers w') = Js.keys (State_servers w)
    /\ forall i idx r,
        State_servers w !! i = Some (idx, r) ->
        (is_available (health r w) = true -> State_servers w' !! i = Some (idx, r))
        /\ (is_available (health r w) = false ->
            exists r', State_servers w' !! i = Some (idx, r')
                       /\ reconnect_of r r' w w').
Proof.
  intros Hwf. unfold reconnectInt.
  destruct (reconnect_loop_wf (Js.keys (State_servers w)) w Hwf) as
    (w' & Hr & Hwf' & Hg & Hk & Hslots); [by destruct Hwf|done|].
  exists w'. split_and!; try done. intros i idx r Hi.
  destruct (Hslots i idx r Hi) as [Hkeep Hnew]. split; [auto|].
  intros Hu. apply Hnew; [done|].
  apply list_elem_of_fmap. exists (idx, r). split; [done|].
  by eapply list_elem_of_lookup_2.
Qed.

(** *** Well-formedness is an invariant of the process *)

Lemma keeps_refl w : keeps w w.
Proof. by repeat split. Qed.

Lemma keeps_trans w1 w2 w3 : keeps w1 w2 -> keeps w2 w3 -> keeps w1 w3.
Proof. intros (?&?&?) (?&?&?). split_and!; [congruence|auto|auto]. Qed.

Lemma keeps_wf w w' : keeps w w' -> wf w -> wf w'.
Proof.
  intros (Hs & Hh & Hu) [Hnd Hall]. split; rewrite Hs; [done|].
  apply forallb_Forall. apply forallb_Forall in Hall.
  eapply Forall_impl; [exact Hall|]. intros [k v]. unfold entry_ok. simpl.
  intros [[H12 H3]%andb_true_iff H4]%andb_true_iff.
  rewrite H12, (Hh _ H3). simpl.
  apply orb_true_iff in H4 as [->|H4]; [done|]. rewrite (Hu H4). apply orb_true_r.
Qed.

Lemma keeps_print l w : keeps w (print l w).
Proof. by destruct w. Qed.

Lemma keeps_when b l w : keeps w (when b l w).
Proof. destruct b; [apply keeps_print | apply keeps_refl]. Qed.

Lemma keeps_set_stats s w : keeps w (set_stats s w).
Proof. by destruct w. Qed.

Lemma keeps_set_clock t w : keeps w (set_clock t w).
Proof. by destruct w. Qed.

Lemma keeps_set_stream h w : keeps w (set_proto Stream h w).
Proof. by destruct w. Qed.

Lemma keeps_set_udp h w : is_available h = true -> keeps w (set_proto Udp h w).
Proof. by destruct w. Qed.

Lemma keeps_mark_available r w : keeps w (mark_available r w).
Proof.
  unfold mark_available. destruct (kind r); [apply keeps_set_stream|].
  by apply keeps_set_udp.
Qed.

Lemma keeps_incr_stats r w : keeps w (incr_stats r w).
Proof.
  unfold incr_stats, health. destruct (kind r); [apply keeps_set_stream|].
  destruct w as [? ? ? ? u ? ? ?]. by repeat split.
Qed.

Lemma keeps_settle c w : keeps w (settle c w).
Proof.
  unfold settle. destruct (handles w !! c) as [[d cn o|]|] eqn:E; try apply keeps_refl.
  split_and!; [by destruct w| |by destruct w].
  intros r. unfold handle_ok. replace (handles (set_handles _ w)) with
    (<[c := NetSocket d false o]> (handles w)) by (by destruct w).
  destruct (decide (connection r = c)) as [->|N].
  - rewrite E, list_lookup_insert_eq by (by eapply lookup_lt_Some). done.
  - by rewrite list_lookup_insert_ne.
Qed.

Lemma keeps_destroy c w : keeps w (destroy c w).
Proof.
  unfold destroy. destruct (handles w !! c) as [[d cn o|]|] eqn:E; try apply keeps_refl.
  split_and!; [by destruct w| |by destruct w].
  intros r. unfold handle_ok. replace (handles (set_handles _ w)) with
    (<[c := NetSocket true false o]> (handles w)) by (by destruct w).
  destruct (decide (connection r = c)) as [->|N].
  - rewrite E, list_lookup_insert_eq by (by eapply lookup_lt_Some). done.
  - by rewrite list_lookup_insert_ne.
Qed.

(** Scanning a backend whose handle is of its own kind never demotes the
    datagram prototype: a datagram socket does not read as destroyed. *)
Lemma keeps_scan_step r w : handle_ok r w = true -> keeps w (scan_step r w).
Proof.
  intros Hok. unfold scan_step. set (w1 := when _ _ w).
  assert (K : keeps w w1) by apply keeps_when.
  assert (Hh : handles w1 = handles w) by (unfold w1, when; by destruct (debug _), w).
  destruct (negb _); [done|]. rewrite Hh.
  unfold handle_ok in Hok. unfold mark_unavailable.
  destruct (kind r) eqn:Hk.
  - destruct (destroyed _); [|done].
    eapply keeps_trans; [exact K|].
    eapply keeps_trans; [apply keeps_print | apply keeps_set_stream].
  - by destruct (handles w !! connection r) as [[]|].
Qed.

Lemma keeps__available_server servers w :
  Forall (fun e => handle_ok e.2 w = true) servers ->
  keeps w (_available_server servers w).2.
Proof.
  revert w. induction servers as [|[idx r] rest IH]; intros w Hall.
  - apply keeps_print.
  - apply Forall_cons in Hall as [Hr Hall]. simpl in Hr.
    rewrite _available_server_cons. destruct (is_usable r w); simpl.
    + apply keeps_when.
    + pose proof (keeps_scan_step r w Hr) as K.
      eapply keeps_trans; [exact K|]. apply IH.
      eapply Forall_impl; [exact Hall|]. intros e. by apply K.
Qed.

Lemma wf_handles_ok w :
  wf w -> Forall (fun e => handle_ok e.2 w = true) (State_servers w).
Proof.
  intros [_ Hall]. apply forallb_Forall in Hall.
  eapply Forall_impl; [exact Hall|]. intros e. unfold entry_ok.
  by intros [[_ ?]%andb_true_iff _]%andb_true_iff.
Qed.

Lemma wf_after e w : wf w -> wf (after e w).
Proof.
  intros Hwf. destruct e; simpl.
  - by eapply keeps_wf; [apply keeps_set_clock|].
  - destruct (pending _ _); [|done]. unfold on_connect.
    eapply keeps_wf; [|exact Hwf].
    eapply keeps_trans; [apply keeps_settle|].
    eapply keeps_trans; [apply keeps_print | apply keeps_mark_available].
  - destruct (owns obj w) eqn:Ho; [|done]. unfold on_error, mark_unavailable.
    apply andb_true_iff in Ho as [Hs _]. unfold is_stream in Hs.
    destruct (kind obj); [|done].
    eapply keeps_wf; [|exact Hwf].
    eapply keeps_trans; [apply keeps_destroy|].
    eapply keeps_trans; [apply keeps_when | apply keeps_set_stream].
  - by eapply keeps_wf; [apply keeps_destroy|].
  - unfold on_connection.
    pose proof (keeps__available_server _ _ (wf_handles_ok _ Hwf)) as K.
    destruct (_available_server _ _) as [[r|] w1]; simpl in *.
    + assert (keeps w (incr_stats r (listen_incr_stats ty w1))).
      { eapply keeps_trans; [exact K|].
        eapply keeps_trans; [apply keeps_set_stats | apply keeps_incr_stats]. }
      destruct (is_stream r); simpl;
        (eapply keeps_wf; [|exact Hwf]);
        (eapply keeps_trans; [eassumption | apply keeps_when]).
    + eapply keeps_wf; [|exact Hwf].
      eapply keeps_trans; [exact K | apply keeps_set_stats].
  - by eapply keeps_wf; [apply keeps_set_stats|].
  - by eapply keeps_wf; [apply keeps_print|].
  - eapply keeps_wf; [|exact Hwf]. unfold on_admin_data, ___admin_command.
    repeat match goal with
           | |- context [if ?b then _ else _] => destruct b
           end; simpl;
      repeat (first [ apply keeps_refl
                    | eapply keeps_trans; [|apply keeps_print]
                    | eapply keeps_trans; [|apply keeps_set_stats]
                    | eapply keeps_trans; [|apply keeps_when] ]).
  - destruct (reconnectInt_wf w Hwf) as (w' & -> & Hwf' & _). done.
Qed.

Lemma wf_run es w : wf w -> wf (run es w).
Proof. revert w. induction es as [|e es IH]; intros w H; [done|]. apply IH, wf_after, H. Qed.

Lemma get_None_set {V} (o : Js.Obj V) k v :
  Js.get k o = None -> Js.set k v o = (o ++ [(k, v)])%list /\ k ∉ Js.keys o.
Proof.
  induction o as [|[k' v'] o IH]; simpl.
  - intros _. split; [done|]. apply not_elem_of_nil.
  - destruct (String.eqb_spec k k') as [->|N]; [done|]. intros H.
    destruct (IH H) as [-> Hn]. split; [done|].
    intros [?|?]%elem_of_cons; [done|]. by apply Hn.
Qed.

Lemma entry_ok_keep w w' e :
  (forall r, handle_ok r w = true -> handle_ok r w' = true) ->
  (is_available (udp_proto w) = true -> is_available (udp_proto w') = true) ->
  entry_ok w e = true -> entry_ok w' e = true.
Proof.
  intros Hh Hu. unfold entry_ok.
  intros [[H12 H3]%andb_true_iff H4]%andb_true_iff.
  rewrite H12, (Hh _ H3). simpl.
  apply orb_true_iff in H4 as [->|H4]; [done|]. rewrite (Hu H4). apply orb_true_r.
Qed.

(** One more property appended to [State.servers] by the initial loop. *)
Lemma wf_connected nm w r w1 :
  wf w -> Js.get nm (State_servers w) = None ->
  _connect_to_server nm false w = Ret r w1 ->
  wf (set_servers (Js.set nm r (State_servers w1)) w1)
  /\ stream_proto w1 = stream_proto w.
Proof.
  intros [Hnd Hall] Hget Hc.
  destruct (get_None_set _ nm r Hget) as [Hset Hnew].
  pose proof (_connect_to_server_spec nm false w) as Hs. simpl in Hs.
  set (w0 := when (trace (Config w)) (UDebug ("" +:+ "Connecting to remote " +:+ nm)) w) in *.
  assert (E0 : State_servers w0 = State_servers w /\ handles w0 = handles w
               /\ udp_proto w0 = udp_proto w /\ stream_proto w0 = stream_proto w).
  { unfold w0, when. by destruct (trace _), w. }
  destruct E0 as (Es & Eh & Eu & Est).
  destruct (parse_kind nm) as [[]|] eqn:Hp.
  - (* a stream backend *)
    destruct Hs as (h & p & Hs). rewrite Hs in Hc. injection Hc as <- <-.
    set (w1 := set_handles _ w0).
    assert (E1 : State_servers w1 = State_servers w
                 /\ handles w1 = (handles w ++ [NetSocket false true nm])%list
                 /\ udp_proto w1 = udp_proto w /\ stream_proto w1 = stream_proto w).
    { unfold w1. rewrite <- Es, <- Eh, <- Eu, <- Est. by destruct w0. }
    destruct E1 as (Es1 & Eh1 & Eu1 & Est1). split; [|done].
    rewrite Es1, Hset.
    set (w2 := set_servers _ w1).
    assert (E2 : State_servers w2 = (State_servers w ++ [(nm, mkRemote nm Stream
                   (List.length (handles w)) h p None)])%list
                 /\ handles w2 = handles w1 /\ udp_proto w2 = udp_proto w1).
    { unfold w2. by destruct w1. }
    destruct E2 as (Es2 & Eh2 & Eu2). clearbody w2. split; rewrite Es2.
    + unfold Js.keys. rewrite fmap_app. apply NoDup_app. split_and!; [done| |].
      * intros x Hx [->|[]%elem_of_nil]%elem_of_cons. by apply Hnew.
      * apply NoDup_singleton.
    + apply forallb_Forall, Forall_app. split.
      * apply forallb_Forall in Hall. eapply Forall_impl; [exact Hall|].
        intros e. apply entry_ok_keep; [|by rewrite Eu2, Eu1].
        intros r0. apply (handle_ok_grow r0 w w2 [NetSocket false true nm]).
        by rewrite Eh2, Eh1.
      * apply Forall_singleton. unfold entry_ok, handle_ok. simpl.
        rewrite String.eqb_refl, (bool_decide_eq_true_2 _ Hp), Eh2, Eh1. simpl.
        rewrite lookup_app_r by lia. rewrite Nat.sub_diag. simpl.
        by rewrite String.eqb_refl.
  - (* a datagram backend *)
    destruct Hs as (h & p & Hs). simpl in Hs. rewrite Hs in Hc. injection Hc as <- <-.
    set (r := mkRemote nm Udp (List.length (handles w)) h p None) in *.
    set (w1 := mark_available r (set_handles _ w0)).
    assert (E1 : State_servers w1 = State_servers w
                 /\ handles w1 = (handles w ++ [DgramSocket])%list
                 /\ is_available (udp_proto w1) = true
                 /\ stream_proto w1 = stream_proto w).
    { unfold w1. rewrite <- Es, <- Eh, <- Est. by destruct w0. }
    destruct E1 as (Es1 & Eh1 & Eu1 & Est1). split; [|done].
    rewrite Es1, Hset.
    set (w2 := set_servers _ w1).
    assert (E2 : State_servers w2 = (State_servers w ++ [(nm, r)])%list
                 /\ handles w2 = handles w1 /\ udp_proto w2 = udp_proto w1).
    { unfold w2. by destruct w1. }
    destruct E2 as (Es2 & Eh2 & Eu2). clearbody w2. split; rewrite Es2.
    + unfold Js.keys. rewrite fmap_app. apply NoDup_app. split_and!; [done| |].
      * intros x Hx [->|[]%elem_of_nil]%elem_of_cons. by apply Hnew.
      * apply NoDup_singleton.
    + apply forallb_Forall, Forall_app. split.
      * apply forallb_Forall in Hall. eapply Forall_impl; [exact Hall|].
        intros e. apply entry_ok_keep; [|by rewrite Eu2, Eu1].
        intros r0. apply (handle_ok_grow r0 w w2 [DgramSocket]).
        by rewrite Eh2, Eh1.
      * apply Forall_singleton. unfold entry_ok, handle_ok. simpl.
        rewrite String.eqb_refl, (bool_decide_eq_true_2 _ Hp), Eh2, Eh1, Eu2, Eu1.
        simpl. rewrite lookup_app_r by lia. by rewrite Nat.sub_diag.
  - destruct Hs as (e & Hs). congruence.
Qed.

Lemma initial_connect_wf names w w' :
  wf w -> initial_connect names w = Ret tt w' ->
  wf w' /\ stream_proto w' = stream_proto w.
Proof.
  revert w. induction names as [|nm rest IH]; intros w Hwf; simpl.
  - by intros [= <-].
  - destruct (Js.get nm (State_servers w)) eqn:Hget; [by apply IH|].
    destruct (Js.inherited nm); [by apply IH|].
    destruct (_connect_to_server nm false w) as [r w1|] eqn:Hc; [|done].
    destruct (wf_connected nm w r w1 Hwf Hget Hc) as [Hwf1 Hst].
    intros H. destruct (IH _ Hwf1 H) as [? ->]. split; [done|].
    rewrite <- Hst. by destruct w1.
Qed.

Lemma wf_boot cfg t0 : wf (boot cfg t0).
Proof. split; [apply NoDup_nil_2 | done]. Qed.

(** Setup leaves a well-formed world in which no stream backend reads
    available yet. *)
Lemma wf_startup cfg t0 w :
  startup cfg t0 = Ret tt w ->
  wf w /\ is_available (stream_proto w) = false.
Proof.
  intros H. destruct (initial_connect_wf _ _ _ (wf_boot cfg t0) H) as [? ->]. done.
Qed.

(** *** The listeners without a backend *)

Lemma on_connection_no_backend ty w :
  (_available_server (State_servers w) w).1 = None ->
  exists w',
    on_connection ty w
    = Raise (Js.TypeError "remote.incr_stats is not a function") w'.
Proof.
  unfold on_connection. destruct (_available_server _ _) as [[r|] w1]; [done|].
  intros _. by eexists.
Qed.

Lemma on_message_raises ty data w :
  exists w',
    on_message ty data w = Raise (Js.ReferenceError "remote is not defined") w'.
Proof. by eexists. Qed.

(** *** The datagram send *)

Lemma forwarded_udp_send_ascii obj data t w :
  encoding (Config w) = "ascii" ->
  forwarded (udp_send obj (data ++ [t]) w) = Some data.
Proof.
  intros E. unfold udp_send, forwarded. rewrite E. simpl String.eqb. cbv iota.
  rewrite length_app. simpl List.length.
  replace (Z.of_nat (List.length data + 1) - 1) with (Z.of_nat (List.length data)) by lia.
  rewrite !(proj2 (Z.leb_le _ _)) by lia. simpl.
  rewrite Nat2Z.id. change (Z.to_nat 0) with 0%nat. rewrite drop_0.
  by rewrite take_app_length.
Qed.

Lemma forwarded_udp_send_ascii_empty obj w :
  encoding (Config w) = "ascii" -> forwarded (udp_send obj [] w) = None.
Proof. intros E. unfold udp_send, forwarded. by rewrite E. Qed.

Lemma forwarded_udp_send_raw obj data w :
  encoding (Config w) <> "ascii" ->
  forwarded (udp_send obj data w) = Some data.
Proof.
  intros E. unfold udp_send, forwarded.
  destruct (String.eqb_spec (encoding (Config w)) "ascii"); [done|].
  rewrite !(proj2 (Z.leb_le _ _)) by lia. simpl.
  rewrite Nat2Z.id. change (Z.to_nat 0) with 0%nat. rewrite drop_0.
  by rewrite firstn_all.
Qed.

(** *** The admin command of the monolith *)

Lemma includes_prefix n q : String.prefix n (n +:+ q) = true.
Proof.
  induction n as [|c n IH]; simpl; [by destruct q|].
  destruct (ascii_dec c c); [done|congruence].
Qed.

Lemma includes_unfold n h :
  Js.includes n h
  = String.prefix n h
    || match h with String _ h' => Js.includes n h' | EmptyString => false end.
Proof. by destruct h. Qed.

Lemma includes_app p n q : Js.includes n (p +:+ n +:+ q) = true.
Proof.
  induction p as [|c p IH].
  - change ("" +:+ n +:+ q) with (n +:+ q).
    by rewrite includes_unfold, includes_prefix.
  - change (String c p +:+ n +:+ q) with (String c (p +:+ n +:+ q)).
    rewrite includes_unfold, IH. apply orb_true_r.
Qed.

Lemma ___admin_command_unrecognized cmd w :
  recognized cmd = false ->
  (___admin_command cmd w).1 = Text ("ERROR" +:+ String "010" "").
Proof.
  unfold recognized, ___admin_command.
  intros [[[H1 H2]%orb_false_iff H3]%orb_false_iff H4]%orb_false_iff.
  by rewrite H1, H2, H3, H4.
Qed.

Lemma ___admin_command_ping w : (___admin_command "ping" w).1 = Text "pong".
Proof. done. Qed.

Lemma on_admin_data_reply data s w :
  (on_admin_data data s w).1
  = stream_write (___admin_command (Js.trim data)
       (set_stats (mkStats (<["admin" := Js.incr (connections (Stats w) !! "admin")]>
                              (connections (Stats w)))
                           (start_time (Stats w)) (uptime (Stats w))) w)).1 s.
Proof. unfold on_admin_data. by destruct (___admin_command _ _). Qed.

(** *** Connects in flight *)

Lemma in_flight_grows r r' w w' :
  grown w w' -> reconnect_of r r' w w' ->
  (in_flight (name r) w < in_flight (name r) w')%nat.
Proof.
  intros (_&_&_&_&_&more&Hh) (_&_&Hlen&Hlk). unfold in_flight.
  rewrite Hh in Hlk |- *. rewrite List.filter_app, length_app.
  rewrite lookup_app_r in Hlk by lia.
  apply list_elem_of_lookup_2, list_elem_of_In in Hlk.
  set (f := fun h => match h with
                     | NetSocket false true o => String.eqb o (name r)
                     | _ => false
                     end).
  assert (Hin : In (NetSocket false true (name r)) (List.filter f more)).
  { apply List.filter_In. split; [done|]. simpl. apply String.eqb_refl. }
  destruct (List.filter f more); [done|]. simpl. lia.
Qed.

End PipedFacts.

(** ** Facts about lib/remote_send.js *)

Module RemoteSendFacts.
Import RemoteSend.

Lemma step_fields now o this :
  is_available (step now o this)
  = default (is_available this) (marks o)
  /\ state_changes (step now o this)
     = state_changes this + match marks o with Some _ => 1 | None => 0 end
  /\ state_changed (step now o this)
     = match marks o with Some _ => now | None => state_changed this end.
Proof. destruct o; simpl; split_and!; try done; lia. Qed.

Lemma run_state_changes ops this :
  state_changes (run ops this) = state_changes this + count_marks ops.
Proof.
  unfold run, count_marks. revert this.
  induction ops as [|[now o] ops IH]; intros this; simpl; [lia|].
  rewrite IH. destruct (step_fields now o this) as (_ & -> & _).
  destruct o; simpl; lia.
Qed.

Lemma count_marks_nonneg ops : 0 <= count_marks ops.
Proof. unfold count_marks. lia. Qed.

Lemma on_error_unchanged rc e obj :
  on_error rc e obj = (obj, [], Js.ReferenceError "config is not defined").
Proof. done. Qed.

End RemoteSendFacts.

(** ** Facts about lib/admin_server.js *)

Module AdminServerFacts.
Import AdminServer.

Section Command.
Context {ConfigT : Type}.
Variable _json_pp : ConfigT -> Js.Exn + string.
Variable inspect : Js.Exn -> string.

Lemma unknown_command_line cmd config stats up now :
  recognized cmd = false ->
  (___admin_command _json_pp inspect cmd config stats up now).1.1
  = "ADMIN ERROR: UNKNOWN COMMAND " +:+ cmd +:+ nl.
Proof.
  unfold recognized, ___admin_command.
  intros [[H1 H2]%orb_false_iff H3]%orb_false_iff.
  by rewrite H1, H2, H3.
Qed.

Lemma ping_pong config stats up now :
  (___admin_command _json_pp inspect "ping" config stats up now).1.1 = "pong".
Proof. done. Qed.

Lemma on_data_conn data config up now st :
  (on_data _json_pp inspect data config up now st).1
  = conn_write (___admin_command _json_pp inspect (Js.trim data) config st.2 up now).1.1
               st.1.
Proof. unfold on_data. by destruct (___admin_command _ _ _ _ _ _ _) as [[? ?] ?]. Qed.

End Command.

End AdminServerFacts.

(** ** The claims of the specification *)

Import Piped PipedFacts Scenario.

Ltac concrete_wf :=
  split; [apply (bool_decide_unpack _); vm_compute; exact I
         | vm_compute; reflexivity].

(** C1.  The specification wants [select] to return the lowest-index
    backend that is usable at call time.  With two stream backends, both
    connected, and the first one's socket destroyed, the second backend is
    usable when [_available_server] is called; the scan demotes the first,
    which clears the flag both instances read, and the selector returns
    [false] without ever returning the second. *)
Theorem C1_selector_misses_usable_backend :
  let w := two_streams_first_gone in
  let res := _available_server (State_servers w) w in
  State_servers w = [("tcp://a:1", A); ("tcp://b:2", B)]
  /\ is_usable A w = false
  /\ is_usable B w = true
  /\ res.1 = None
  /\ is_available (health B res.2) = false
  /\ destroyed (handles res.2 !! connection B) = false.
Proof. vm_compute. by repeat split. Qed.

(** C2.  The specification wants an inbound unit that finds no usable
    backend to be dropped with a log line, never fatally.  With the only
    backend refused, the selector logs and returns [false], and the stream
    listener's handler then throws a [TypeError] out of the event loop;
    the datagram listener's handler throws a [ReferenceError] on any
    datagram. *)
Theorem C2_no_backend_inbound_throws :
  let w := one_refused in
  (_available_server (State_servers w) w).1 = None
  /\ (exists w',
        on_connection "tcp" w
        = Raise (Js.TypeError "remote.incr_stats is not a function") w'
        /\ last (out w') = Some (UError "No available servers"))
  /\ (exists w',
        on_message "udp" [Byte.x68; Byte.x69] w
        = Raise (Js.ReferenceError "remote is not defined") w').
Proof.
  split_and!; [by vm_compute | | by eexists].
  eexists. split; [by vm_compute | by vm_compute].
Qed.

(** C3.  [is_available] is written only by [mark_available] and
    [mark_unavailable]; each call stamps [state_changed] with the current
    time and adds one to [state_changes] together with the flag; two
    calls in a row add two; and [state_changes] never decreases, whatever
    the process does.  In the monolith the four fields are those every
    instance of one constructor reads; in [lib/remote_send.js] they are
    the object's own. *)
Theorem C3_health_changes_only_through_marks :
  (forall r w,
      health r (mark_available r w)
      = mkHealth true (_now w) (state_changes (health r w) + 1)
                 (last_sent (health r w)))
  /\ (forall r w,
         health r (mark_unavailable r w)
         = mkHealth false (_now w) (state_changes (health r w) + 1)
                    (last_sent (health r w)))
  /\ (forall r w,
         is_available (health r (mark_available r (mark_available r w))) = true
         /\ state_changes (health r (mark_available r (mark_available r w)))
            = state_changes (health r w) + 2)
  /\ (forall r r' w,
         is_available (health r' (incr_stats r w)) = is_available (health r' w)
         /\ state_changes (health r' (incr_stats r w)) = state_changes (health r' w)
         /\ state_changed (health r' (incr_stats r w)) = state_changed (health r' w))
  /\ (forall es k w, evolves (proto k w) (proto k (run es w)))
  /\ (forall now o this,
         RemoteSend.is_available (RemoteSend.step now o this)
         = default (RemoteSend.is_available this) (RemoteSend.marks o)
         /\ RemoteSend.state_changes (RemoteSend.step now o this)
            = RemoteSend.state_changes this
              + match RemoteSend.marks o with Some _ => 1 | None => 0 end
         /\ RemoteSend.state_changed (RemoteSend.step now o this)
            = match RemoteSend.marks o with
              | Some _ => now
              | None => RemoteSend.state_changed this
              end)
  /\ (forall ops this,
         RemoteSend.state_changes (RemoteSend.run ops this)
         = RemoteSend.state_changes this + RemoteSend.count_marks ops
         /\ 0 <= RemoteSend.count_marks ops).
Proof.
  split_and!.
  - apply health_mark_available.
  - apply health_mark_unavailable.
  - intros r w. rewrite !health_mark_available. simpl. split; [done|lia].
  - intros [? [] ? ? ? ?] [? [] ? ? ? ?] w; by destruct w.
  - apply run_evolves.
  - apply RemoteSendFacts.step_fields.
  - intros ops this.
    split; [apply RemoteSendFacts.run_state_changes
           | apply RemoteSendFacts.count_marks_nonneg].
Qed.

(** C4, as the code has it.  A stream backend's constructor leaves the
    health flag alone: after setup every stream backend reads
    [is_available = false] and every datagram backend reads [true], and a
    backend the supervisor rebuilds reads [false]; the ['connect'] handler
    marks it available; the ['error'] handler marks it unavailable, returns
    normally, and prints its line only when [Config.trace] is set; a
    datagram backend reads available as soon as it is constructed. *)
Theorem C4_construction_and_connect_events
    cfg t0 w obj e w0 nm h p i idx r :
  (startup cfg t0 = Ret tt w ->
   Forall (fun x => is_available (health x.2 w) = negb (is_stream x.2))
          (State_servers w))
  /\ (wf w0 -> State_servers w0 !! i = Some (idx, r) ->
      is_available (health r w0) = false ->
      exists w' r',
        reconnectInt w0 = Ret tt w'
        /\ State_servers w' !! i = Some (idx, r')
        /\ is_available (health r' w') = false)
  /\ health (RemoteStreamConnect nm h p w0).1 (RemoteStreamConnect nm h p w0).2
     = stream_proto w0
  /\ is_available (health obj (on_connect obj w0)) = true
  /\ is_available (health obj (on_error obj e w0)) = false
  /\ out (on_error obj e w0)
     = (out w0 ++ if trace (Config w0)
                  then [UError ("ERROR: " +:+ name obj +:+ ": " +:+ e)]
                  else [])%list
  /\ is_available (health (RemoteUDPConnect nm h p w0).1
                          (RemoteUDPConnect nm h p w0).2) = true.
Proof.
  split_and!.
  - intros Hs. destruct (wf_startup _ _ _ Hs) as [[_ Hall] Hst].
    apply forallb_Forall in Hall. eapply Forall_impl; [exact Hall|].
    intros [k v]. unfold entry_ok, health, is_stream. simpl.
    intros [_ H4]%andb_true_iff. destruct (kind v); simpl in *; congruence.
  - intros Hwf Hi Hu.
    destruct (reconnectInt_wf w0 Hwf) as (w' & Hr & _ & Hg & _ & Hslots).
    destruct (Hslots i idx r Hi) as [_ Hnew].
    destruct (Hnew Hu) as (r' & Hi' & _ & Hk & _).
    exists w', r'. split_and!; [done|done|].
    unfold health in *. rewrite Hk. fold (health r w'). by rewrite (grown_health r w0 w').
  - by destruct w0.
  - unfold on_connect. cbv zeta. by rewrite health_mark_available.
  - unfold on_error. cbv zeta. by rewrite health_mark_unavailable.
  - unfold on_error, when. destruct (trace (Config w0)), (kind obj) eqn:E, w0;
      unfold mark_unavailable; rewrite E; simpl; by rewrite ?app_nil_r.
  - unfold RemoteUDPConnect, alloc. cbv beta iota zeta. cbn [fst snd].
    by rewrite health_mark_available.
Qed.

(** C5.  The specification wants the datagram send under a line-oriented
    encoding to trim one trailing terminator and to leave a payload
    without one alone.  The send's comment says it removes the newline
    from the end; the code passes [buf.length - 1] whenever the encoding
    is ["ascii"], so the three bytes [abc] leave as [ab], and an empty
    payload is handed to the socket with length -1. *)
Theorem C5_ascii_send_drops_last_data_byte :
  encoding (Config (one_udp "ascii")) = "ascii"
  /\ udp_send U0 [Byte.x61; Byte.x62; Byte.x63] (one_udp "ascii")
     = DgramSend 0 [Byte.x61; Byte.x62; Byte.x63] 0 2 "9" "h"
  /\ forwarded (udp_send U0 [Byte.x61; Byte.x62; Byte.x63] (one_udp "ascii"))
     = Some [Byte.x61; Byte.x62]
  /\ udp_send U0 [] (one_udp "ascii") = DgramSend 0 [] 0 (-1) "9" "h".
Proof. by vm_compute. Qed.

(** C6, as the code has it.  On every tick, every backend that reads
    [is_available == false] is rebuilt by [_connect_to_server] around a new
    handle whose connect is pending; handles of earlier attempts are left
    as they are and nothing is skipped, so the number of connects in
    flight for that backend grows with each such tick. *)
Theorem C6_tick_reconnects_every_unavailable_backend w :
  wf w ->
  exists w',
    reconnectInt w = Ret tt w'
    /\ (forall c h, handles w !! c = Some h -> handles w' !! c = Some h)
    /\ forall i idx r,
        State_servers w !! i = Some (idx, r) ->
        (is_available (health r w) = true ->
         State_servers w' !! i = Some (idx, r))
        /\ (is_available (health r w) = false ->
            exists r',
              State_servers w' !! i = Some (idx, r')
              /\ reconnect_of r r' w w'
              /\ (in_flight (name r) w < in_flight (name r) w')%nat).
Proof.
  intros Hwf.
  destruct (reconnectInt_wf w Hwf) as (w' & Hr & _ & Hg & _ & Hslots).
  exists w'. split_and!; [done|intros c h; by apply grown_lookup|].
  intros i idx r Hi. destruct (Hslots i idx r Hi) as [Hkeep Hnew].
  split; [done|]. intros Hu. destruct (Hnew Hu) as (r' & Hi' & Hro).
  exists r'. split_and!; [done|done|by eapply in_flight_grows].
Qed.

(** C7.  A backend the supervisor reconnects keeps its key, its name and
    its constructor.  The tick stores a new instance, but [is_available],
    [state_changed], [state_changes] and [last_sent] are not properties of
    the instance: they are read from the constructor's prototype, which
    the tick does not write.  So they read after the tick what they read
    before it, [stats()] returns the same object, and only the connection
    handle is a new one. *)
Theorem C7_reconnect_preserves_identity_and_stats w i idx r :
  wf w ->
  State_servers w !! i = Some (idx, r) ->
  is_available (health r w) = false ->
  exists w' r',
    reconnectInt w = Ret tt w'
    /\ State_servers w' !! i = Some (idx, r')
    /\ name r' = name r
    /\ kind r' = kind r
    /\ health r' w' = health r w
    /\ stats r' w' = stats r w
    /\ connection r' <> connection r.
Proof.
  intros Hwf Hi Hu.
  destruct (reconnectInt_wf w Hwf) as (w' & Hr & _ & Hg & _ & Hslots).
  destruct (Hslots i idx r Hi) as [_ Hnew].
  destruct (Hnew Hu) as (r' & Hi' & Hn & Hk & Hlen & Hlk).
  assert (Hh : health r' w' = health r w).
  { unfold health. rewrite Hk. apply (grown_health r w w' Hg). }
  exists w', r'. split_and!; try done.
  - unfold stats. rewrite Hh. destruct Hg as (_ & -> & _ & _ & Hc & _).
    unfold _now. by rewrite Hc.
  - destruct (wf_entry _ _ _ _ Hwf Hi) as (_ & _ & Hok & _).
    unfold handle_ok in Hok. intros E.
    destruct (handles w !! connection r) eqn:El; [|by destruct (kind r)].
    apply lookup_lt_Some in El. lia.
Qed.

(** C8, as the code has it.  In the monolith every ['error'] event of a
    stream backend's socket calls [mark_unavailable] at once: the flag
    reads false, stamped and counted.  The handler of
    [lib/remote_send.js] never calls [mark_unavailable]: it throws a
    [ReferenceError] on its unbound [config] before it logs, and leaves
    every field of the backend as it was.  The callback of a datagram send
    only prints the byte count.  And selection demotes too: once the scan
    reaches a backend whose handle is destroyed (no backend before it is
    usable), the backend reads unavailable when the selector returns, it
    is not the one returned, and if it read available before the call the
    change was counted. *)
Theorem C8_transport_error_effect :
  (forall obj e w,
      health obj (on_error obj e w)
      = mkHealth false (_now w) (state_changes (health obj w) + 1)
                 (last_sent (health obj w)))
  /\ (forall now rc e obj,
         RemoteSend.on_error rc e obj
         = (obj, [], Js.ReferenceError "config is not defined")
         /\ RemoteSend.step now (RemoteSend.Error rc e) obj = obj)
  /\ (forall bytes k w, proto k (on_sent bytes w) = proto k w)
  /\ (forall (pre : Js.Obj Remote) idx r post w,
         Forall (fun x => is_usable x.2 w = false) pre ->
         destroyed (handles w !! connection r) = true ->
         let res := _available_server (pre ++ (idx, r) :: post)%list w in
         is_available (health r res.2) = false
         /\ res.1 <> Some r
         /\ (is_available (health r w) = true ->
             state_changes (health r w) < state_changes (health r res.2))).
Proof.
  split_and!.
  - intros obj e w. unfold on_error. cbv zeta. rewrite health_mark_unavailable.
    unfold health, _now, when. by destruct (trace _), w.
  - done.
  - intros. apply proto_print.
  - intros pre idx r post w Hpre Hd. cbv zeta.
    pose proof (_available_server_demotes pre idx r post w Hpre Hd) as Hf.
    split_and!; [done| |].
    + intros Hs. apply _available_server_Some in Hs as (_ & _ & _ & _ & Hu & _).
      unfold is_usable in Hu. apply andb_true_iff in Hu as [Hu _].
      congruence.
    + intros Ha.
      destruct (_available_server_evolves (pre ++ (idx, r) :: post)%list
                  (kind r) w) as [_ Hc].
      apply Hc. left. unfold health in Hf, Ha. congruence.
Qed.

(** C9, as the code has it.  An unrecognized command gets an error line
    and leaves the connection open, so a following [ping] is answered
    [pong] on it; the handler of [lib/admin_server.js] names the command
    in that line, the monolith's handler replies the fixed line
    ["ERROR"]. *)
Theorem C9_unrecognized_command_reply
    {ConfigT : Type} (_json_pp : ConfigT -> Js.Exn + string)
    (inspect : Js.Exn -> string) data config up now c st s w :
  (AdminServer.recognized (Js.trim data) = false ->
   AdminServer.closed c = false ->
   let err := "ADMIN ERROR: UNKNOWN COMMAND " +:+ Js.trim data +:+ AdminServer.nl in
   let st1 := AdminServer.on_data _json_pp inspect data config up now (c, st) in
   Js.includes (Js.trim data) err = true
   /\ st1.1 = AdminServer.mkConn false (AdminServer.written c ++ [err])
   /\ (AdminServer.on_data _json_pp inspect "ping" config up now st1).1
      = AdminServer.mkConn false (AdminServer.written c ++ [err; "pong"]))
  /\ (recognized (Js.trim data) = false ->
      closed s = false ->
      let err := Text ("ERROR" +:+ String "010" "") in
      let r1 := on_admin_data data s w in
      r1.1 = mkAdminStream false (written s ++ [err])
      /\ (on_admin_data "ping" r1.1 r1.2).1
         = mkAdminStream false (written s ++ [err; Text "pong"])).
Proof.
  split.
  - intros Hr Hc. cbv zeta. split_and!.
    + apply includes_app.
    + rewrite AdminServerFacts.on_data_conn.
      rewrite AdminServerFacts.unknown_command_line by done.
      cbn [fst snd]. unfold AdminServer.conn_write. by rewrite Hc.
    + rewrite !AdminServerFacts.on_data_conn.
      change (Js.trim "ping") with "ping".
      rewrite AdminServerFacts.ping_pong.
      rewrite AdminServerFacts.unknown_command_line by done.
      cbn [fst snd]. unfold AdminServer.conn_write at 2. rewrite Hc.
      unfold AdminServer.conn_write. cbn [AdminServer.closed AdminServer.written].
      by rewrite <- app_assoc.
  - intros Hr Hc. cbv zeta. split.
    + rewrite on_admin_data_reply, ___admin_command_unrecognized by done.
      unfold stream_write. by rewrite Hc.
    + rewrite !on_admin_data_reply. change (Js.trim "ping") with "ping".
      rewrite ___admin_command_ping, ___admin_command_unrecognized by done.
      unfold stream_write at 2. rewrite Hc.
      unfold stream_write. cbn [closed written]. by rewrite <- app_assoc.
Qed.

(** C10.  The specification wants a call to [select] to leave every
    backend after the returned one unread and unchanged.  With a destroyed
    stream backend, a datagram backend and a second stream backend, the
    selector returns the datagram backend, and the second stream backend,
    which comes after it, reads [is_available = false] with a new stamp
    and count once the call returns: demoting the first stream backend
    wrote the fields both stream instances read. *)
Theorem C10_selector_demotes_backend_after_returned_one :
  let w := stream_udp_stream_first_gone in
  let res := _available_server (State_servers w) w in
  State_servers w = [("tcp://a:1", A); ("udp://h:9", U); ("tcp://b:2", B2)]
  /\ res.1 = Some U
  /\ health B2 w = mkHealth true 101 2 None
  /\ health B2 res.2 = mkHealth false 102 3 None.
Proof. vm_compute. by repeat split. Qed.

(** ** Counterexamples to the claims as the specification states them *)

(** C4 as stated says every connect-phase error is logged.  With
    [Config.trace] off, the ['error'] handler of the only backend runs,
    marks it unavailable and prints nothing. *)
Lemma C4_connect_error_not_logged_without_trace :
  let w := one_pending false in
  owns A w = true
  /\ out (after (EvError A "ECONNREFUSED") w) = out w
  /\ is_available (health A (after (EvError A "ECONNREFUSED") w)) = false.
Proof. by vm_compute. Qed.

(** C6 as stated says a backend whose reconnect is still pending is
    skipped.  The only backend's first connect is pending when the tick
    fires; the tick gives it a second socket, and two connects are in
    flight for it. *)
Lemma C6_tick_starts_a_second_connect :
  let w := one_pending true in
  pending A w = true
  /\ in_flight "tcp://a:1" w = 1%nat
  /\ exists w',
      reconnectInt w = Ret tt w'
      /\ connection <$> Js.get "tcp://a:1" (State_servers w') = Some 1%nat
      /\ in_flight "tcp://a:1" w' = 2%nat.
Proof.
  split_and!; [by vm_compute | by vm_compute |].
  eexists. split_and!; [by vm_compute | by vm_compute | by vm_compute].
Qed.

(** C8 as stated says one error event leaves [is_available] unchanged.
    In the monolith, one ['error'] event on the socket of a connected
    backend makes it read unavailable. *)
Lemma C8_error_event_marks_backend_unavailable :
  let w := one_connected in
  owns A w = true
  /\ is_available (health A w) = true
  /\ is_available (health A (after (EvError A "EPIPE") w)) = false.
Proof. by vm_compute. Qed.

(** C9 as stated says the error line names the unknown command.  The
    monolith's handler answers [foo] with ["ERROR"] and a newline, in
    which [foo] does not occur. *)
Lemma C9_monolith_error_line_omits_command :
  recognized "foo" = false
  /\ (___admin_command "foo" one_connected).1 = Text ("ERROR" +:+ String "010" "")
  /\ Js.includes "foo" ("ERROR" +:+ String "010" "") = false.
Proof. by vm_compute. Qed.

(** ** The theorems at concrete inputs *)

Lemma C4_witness :
  Forall (fun x => is_available (health x.2 stream_and_udp) = negb (is_stream x.2))
         (State_servers stream_and_udp)
  /\ exists w' r',
      reconnectInt one_refused = Ret tt w'
      /\ State_servers w' !! 0%nat = Some ("tcp://a:1", r')
      /\ is_available (health r' w') = false.
Proof.
  destruct (C4_construction_and_connect_events
              (config ["tcp://a:1"; "udp://h:9"] true "ascii") 100 stream_and_udp
              A "ECONNREFUSED" one_refused "udp://h:9" "h" "9"
              0%nat "tcp://a:1" A) as (H1 & H2 & _).
  split.
  - apply H1. vm_compute. reflexivity.
  - apply H2; [concrete_wf | vm_compute; reflexivity | vm_compute; reflexivity].
Defined.

Lemma C6_witness :
  exists w',
    reconnectInt one_refused = Ret tt w'
    /\ (forall c h, handles one_refused !! c = Some h -> handles w' !! c = Some h)
    /\ forall i idx r,
        State_servers one_refused !! i = Some (idx, r) ->
        (is_available (health r one_refused) = true ->
         State_servers w' !! i = Some (idx, r))
        /\ (is_available (health r one_refused) = false ->
            exists r',
              State_servers w' !! i = Some (idx, r')
              /\ reconnect_of r r' one_refused w'
              /\ (in_flight (name r) one_refused < in_flight (name r) w')%nat).
Proof.
  apply (C6_tick_reconnects_every_unavailable_backend one_refused). concrete_wf.
Defined.

Lemma C7_witness :
  exists w' r',
    reconnectInt one_refused = Ret tt w'
    /\ State_servers w' !! 0%nat = Some ("tcp://a:1", r')
    /\ name r' = name A
    /\ kind r' = kind A
    /\ health r' w' = health A one_refused
    /\ stats r' w' = stats A one_refused
    /\ connection r' <> connection A.
Proof.
  apply (C7_reconnect_preserves_identity_and_stats one_refused 0%nat "tcp://a:1" A);
    [concrete_wf | vm_compute; reflexivity | vm_compute; reflexivity].
Defined.

Lemma C8_witness :
  let w := two_streams_first_gone in
  let res := _available_server [("tcp://a:1", A); ("tcp://b:2", B)] w in
  is_available (health A res.2) = false
  /\ res.1 <> Some A
  /\ state_changes (health A w) < state_changes (health A res.2).
Proof.
  intros w res.
  destruct C8_transport_error_effect as (_ & _ & _ & H).
  destruct (H [] "tcp://a:1" A [("tcp://b:2", B)] two_streams_first_gone)
    as (H1 & H2 & H3).
  - constructor.
  - reflexivity.
  - split_and!; [exact H1 | exact H2 | apply H3; reflexivity].
Defined.

Lemma C9_witness :
  let lf := String "010" "" in
  let json (_ : unit) : Js.Exn + string := inr "{}" in
  let insp (_ : Js.Exn) := "" in
  let c0 := AdminServer.mkConn false [] in
  let st0 := AdminServer.mkStats None Js.NaN 0 in
  let s0 := mkAdminStream false [] in
  (Js.includes "foo" ("ADMIN ERROR: UNKNOWN COMMAND " +:+ "foo" +:+ lf) = true
   /\ (AdminServer.on_data json insp ("foo" +:+ lf) tt 5 107 (c0, st0)).1
      = AdminServer.mkConn false ["ADMIN ERROR: UNKNOWN COMMAND " +:+ "foo" +:+ lf]
   /\ (AdminServer.on_data json insp "ping" tt 5 107
         (AdminServer.on_data json insp ("foo" +:+ lf) tt 5 107 (c0, st0))).1
      = AdminServer.mkConn false
          ["ADMIN ERROR: UNKNOWN COMMAND " +:+ "foo" +:+ lf; "pong"])
  /\ ((on_admin_data ("foo" +:+ lf) s0 one_connected).1
      = mkAdminStream false [Text ("ERROR" +:+ lf)]
      /\ (on_admin_data "ping" (on_admin_data ("foo" +:+ lf) s0 one_connected).1
            (on_admin_data ("foo" +:+ lf) s0 one_connected).2).1
         = mkAdminStream false [Text ("ERROR" +:+ lf); Text "pong"]).
Proof.
  intros lf json insp c0 st0 s0.
  destruct (C9_unrecognized_command_reply json insp ("foo" +:+ lf) tt 5 107
              c0 st0 s0 one_connected) as [H1 H2].
  split.
  - apply H1; reflexivity.
  - apply H2; reflexivity.
Defined.

(** ** Further facts: connection strings *)

Module ParseFacts.
Import Piped PipedFacts.

Lemma append_cons c s t : String c s +:+ t = String c (s +:+ t).
Proof. done. Qed.

Lemma append_nil_l t : "" +:+ t = t.
Proof. done. Qed.

Lemma append_nil_r s : s +:+ "" = s.
Proof. induction s as [|c s IH]; [done|]. by rewrite append_cons, IH. Qed.

Lemma append_assoc a b c : (a +:+ b) +:+ c = a +:+ b +:+ c.
Proof. induction a as [|x a IH]; [done|]. by rewrite !append_cons, IH. Qed.

Lemma substring_all s : String.substring 0 (String.length s) s = s.
Proof. induction s as [|c s IH]; simpl; [done|by rewrite IH]. Qed.

Lemma all_digits_colon x y : Js.all_digits (x +:+ ":" +:+ y) = false.
Proof.
  induction x as [|c x IH]; [done|].
  rewrite append_cons. simpl. rewrite IH. apply andb_false_r.
Qed.

Lemma span_word_stop ty rest :
  Js.all_word ty = true ->
  Js.span_word (ty +:+ String ":" rest) = (ty, String ":" rest).
Proof.
  induction ty as [|c ty IH]; [done|]. simpl.
  intros [Hc H]%andb_true_iff. rewrite ?append_cons. simpl.
  by rewrite Hc, (IH H).
Qed.

Lemma strip_scheme r : Js.strip_prefix "://" ("://" +:+ r) = Some r.
Proof.
  unfold Js.strip_prefix. rewrite !append_cons, append_nil_l. simpl.
  replace (String.prefix "" r) with true by (by destruct r).
  rewrite Nat.sub_0_r. by rewrite substring_all.
Qed.

(** The lazy group stops at the last colon: nothing before it can be
    followed by digits only. *)
Lemma host_port_split acc h p :
  (acc <> "" \/ h <> "") ->
  Js.no_line_terminator h = true ->
  p <> "" -> Js.all_digits p = true ->
  Js.host_port acc (h +:+ ":" +:+ p) = Some (acc +:+ h, p).
Proof.
  revert acc. induction h as [|c h IH]; intros acc Hne Hlt Hp Hd.
  - destruct Hne as [Hacc|]; [|done].
    rewrite append_nil_l, append_cons, append_nil_l. simpl.
    destruct (String.eqb_spec acc ""); [done|].
    destruct (String.eqb_spec p ""); [done|].
    rewrite Hd. simpl. by rewrite append_nil_r.
  - simpl in Hlt. apply andb_true_iff in Hlt as [Hc Hlt].
    rewrite append_cons. simpl. rewrite all_digits_colon, !andb_false_r.
    apply negb_true_iff in Hc. rewrite Hc.
    rewrite IH; [|left; destruct acc; by rewrite ?append_cons|done|done|done].
    rewrite append_assoc. by rewrite append_cons, append_nil_l.
Qed.

Lemma match_url_format ty h p :
  ty <> "" -> Js.all_word ty = true ->
  h <> "" -> Js.no_line_terminator h = true ->
  p <> "" -> Js.all_digits p = true ->
  Js.match_url (ty +:+ "://" +:+ h +:+ ":" +:+ p) = Some (ty, h, p).
Proof.
  intros Hty Hw Hh Hlt Hp Hd. unfold Js.match_url.
  rewrite (append_cons ":" "//"), (span_word_stop _ _ Hw).
  destruct (String.eqb_spec ty ""); [done|].
  rewrite <- (append_cons ":" "//").
  rewrite strip_scheme, host_port_split by auto. by rewrite append_nil_l.
Qed.

Lemma match_socket_word ty rest :
  ty <> "" -> Js.all_word ty = true -> Js.match_socket (ty +:+ rest) = false.
Proof.
  destruct ty as [|c ty]; [done|]. simpl. intros _ [Hc _]%andb_true_iff.
  rewrite ?append_cons. unfold Js.match_socket.
  destruct c as [[] [] [] [] [] [] [] []]; try done.
Qed.

End ParseFacts.

(** ** Further facts: setup *)

Module SetupFacts.
Import Piped PipedFacts.

Lemma _connect_to_server_Ret str rc w r w1 :
  _connect_to_server str rc w = Ret r w1 ->
  name r = str /\ connection r = List.length (handles w)
  /\ parse_kind str = Some (kind r)
  /\ State_servers w1 = State_servers w
  /\ exists h, handles w1 = (handles w ++ [h])%list.
Proof.
  pose proof (_connect_to_server_spec str rc w) as H. simpl in H.
  set (w0 := when _ _ w) in H.
  assert (E0 : State_servers w0 = State_servers w /\ handles w0 = handles w).
  { unfold w0, when. by destruct (trace _), w. }
  destruct E0 as [Es Eh]. clearbody w0.
  destruct (parse_kind str) as [[]|].
  - destruct H as (h & p & ->). intros [= <- <-].
    split_and!; try done; try (rewrite <- Es; by destruct w0).
    eexists. by destruct w0.
  - destruct H as (h & p & ->). intros [= <- <-].
    split_and!; try done; try (rewrite <- Es; by destruct w0).
    eexists. by destruct w0.
  - destruct H as (e & ->). done.
Qed.

Lemma _connect_to_server_Raise str rc w e w1 :
  _connect_to_server str rc w = Raise e w1 ->
  parse_kind str = None
  /\ State_servers w1 = State_servers w /\ handles w1 = handles w
  /\ forall k, proto k w1 = proto k w.
Proof.
  pose proof (_connect_to_server_spec str rc w) as H. simpl in H.
  destruct (parse_kind str) as [[]|].
  - destruct H as (h & p & ->). done.
  - destruct H as (h & p & ->). done.
  - destruct H as (e' & ->). intros [= <- <-]. split_and!; try done.
    + unfold when. by destruct (trace _), w.
    + unfold when. by destruct (trace _), w.
    + intros k. apply proto_when.
Qed.

Lemma get_Some_key {V} (o : Js.Obj V) k v : Js.get k o = Some v -> k ∈ Js.keys o.
Proof.
  induction o as [|[k' v'] o IH]; simpl; [done|].
  destruct (String.eqb_spec k k') as [->|N].
  - intros _. by left.
  - intros H. right. by apply IH.
Qed.

Lemma not_key_get_None {V} (o : Js.Obj V) k : k ∉ Js.keys o -> Js.get k o = None.
Proof.
  intros Hn. destruct (Js.get k o) eqn:E; [|done].
  by apply get_Some_key in E.
Qed.

(** The initial loop adds exactly the names it meets that are neither
    keys yet nor names of [Object.prototype], and creates one handle for
    each property it adds. *)
Lemma initial_connect_keys names w w' :
  initial_connect names w = Ret tt w' ->
  (forall nm, nm ∈ Js.keys (State_servers w')
              <-> nm ∈ Js.keys (State_servers w)
                  \/ (nm ∈ names /\ Js.inherited nm = false))
  /\ (List.length (handles w') + List.length (State_servers w)
      = List.length (handles w) + List.length (State_servers w'))%nat.
Proof.
  revert w. induction names as [|nm rest IH]; intros w; simpl.
  - intros [= <-]. split; [|done]. intros x. rewrite elem_of_nil. tauto.
  - destruct (Js.get nm (State_servers w)) eqn:Hget.
    + intros H. destruct (IH _ H) as [Hk Hl]. split; [|done].
      intros x. rewrite Hk, elem_of_cons. apply get_Some_key in Hget.
      split; [tauto|]. intros [?|[[E|?] ?]]; [tauto|subst x; tauto|tauto].
    + destruct (Js.inherited nm) eqn:Hinh.
      { intros H. destruct (IH _ H) as [Hk Hl]. split; [|done].
        intros x. rewrite Hk, elem_of_cons.
        split; [tauto|]. intros [?|[[E|?] ?]]; [tauto|congruence|tauto]. }
      destruct (_connect_to_server nm false w) as [r w1|] eqn:Hc; [|done].
      destruct (_connect_to_server_Ret _ _ _ _ _ Hc) as (_ & _ & _ & Hs & h & Hh).
      destruct (get_None_set _ nm r Hget) as [Hset _].
      intros H. destruct (IH _ H) as [Hk Hl]. clear IH H.
      assert (E : State_servers (set_servers (Js.set nm r (State_servers w1)) w1)
                  = (State_servers w ++ [(nm, r)])%list
                  /\ handles (set_servers (Js.set nm r (State_servers w1)) w1)
                     = (handles w ++ [h])%list).
      { rewrite Hs, Hset, <- Hh. by destruct w1. }
      destruct E as [E1 E2]. rewrite E1 in Hk, Hl. rewrite E2 in Hl. split.
      * intros x. rewrite Hk. unfold Js.keys. rewrite fmap_app, elem_of_app.
        simpl. rewrite list_elem_of_singleton, elem_of_cons.
        split; [|tauto]. intros [[?|E]|?]; [tauto|subst x; tauto|tauto].
      * rewrite !length_app in Hl. simpl in Hl. lia.
Qed.

Lemma initial_connect_total names w :
  Forall (fun nm => Js.inherited nm = true \/ parse_kind nm <> None) names ->
  exists w', initial_connect names w = Ret tt w'.
Proof.
  revert w. induction names as [|nm rest IH]; intros w Hall; simpl; [by eexists|].
  apply Forall_cons in Hall as [Hp Hall].
  destruct (Js.get nm (State_servers w)); [by apply IH|].
  destruct (Js.inherited nm); [by apply IH|].
  destruct Hp as [?|Hp]; [done|].
  pose proof (_connect_to_server_spec nm false w) as H. simpl in H.
  destruct (parse_kind nm) as [[]|]; [| |done].
  - destruct H as (h & p & ->). by apply IH.
  - destruct H as (h & p & ->). by apply IH.
Qed.

Lemma initial_connect_parsed names w w' :
  wf w -> initial_connect names w = Ret tt w' ->
  Forall (fun nm => Js.inherited nm = true \/ parse_kind nm <> None) names.
Proof.
  revert w. induction names as [|nm rest IH]; intros w Hwf; simpl; [constructor|].
  destruct (Js.get nm (State_servers w)) as [r|] eqn:Hget.
  - intros H. constructor; [|by eapply IH]. right.
    assert (Hin : exists i, State_servers w !! i = Some (nm, r)).
    { clear -Hget. induction (State_servers w) as [|[k v] o IHo]; [done|].
      simpl in Hget. destruct (String.eqb_spec nm k) as [->|N].
      - injection Hget as ->. by exists 0%nat.
      - destruct (IHo Hget) as [i Hi]. by exists (S i). }
    destruct Hin as [i Hi].
    destruct (wf_entry _ _ _ _ Hwf Hi) as (-> & -> & _). done.
  - destruct (Js.inherited nm) eqn:Hinh.
    { intros H. constructor; [by left|by eapply IH]. }
    destruct (_connect_to_server nm false w) as [r w1|] eqn:Hc; [|done].
    destruct (wf_connected nm w r w1 Hwf Hget Hc) as [Hwf1 _].
    destruct (_connect_to_server_Ret _ _ _ _ _ Hc) as (_ & _ & Hp & _).
    intros H. constructor; [right; by rewrite Hp|by eapply IH].
Qed.

End SetupFacts.

(** ** Further facts: listeners, selector, admin *)

Module HandlerFacts.
Import Piped PipedFacts.

Lemma _available_server_None_line servers w :
  (_available_server servers w).1 = None ->
  last (out (_available_server servers w).2) = Some (UError "No available servers").
Proof.
  revert w. induction servers as [|[idx r] rest IH]; intros w.
  - intros _. simpl. destruct w. simpl. apply last_snoc.
  - rewrite _available_server_cons. destruct (is_usable r w); [done|]. apply IH.
Qed.

Lemma _available_server_unusable servers w :
  Forall (fun e => is_usable e.2 w = false) servers ->
  (_available_server servers w).1 = None.
Proof.
  intros Hall. destruct (_available_server servers w).1 as [r|] eqn:E; [|done].
  destruct (_available_server_Some _ _ _ E) as (pre & idx & post & -> & _ & Hu & _).
  apply Forall_app in Hall as [_ Hall]. apply Forall_cons in Hall as [Hr _].
  simpl in Hr. congruence.
Qed.

(** One call of the listener's bookkeeping. *)
Lemma listen_incr_stats_fields ty w :
  ty <> "total" -> ty <> "last" ->
  let c := connections (Stats w) in
  let c' := connections (Stats (listen_incr_stats ty w)) in
  c' !! ty = Some (Js.incr (c !! ty))
  /\ c' !! "total" = Some (Js.incr (c !! "total"))
  /\ c' !! "last" = Some (Js.Int (_now w))
  /\ (forall k, k <> ty -> k <> "total" -> k <> "last" -> c' !! k = c !! k)
  /\ clock (listen_incr_stats ty w) = clock w.
Proof.
  intros H1 H2. unfold listen_incr_stats. destruct w as [C [c st up] S sp upr hs o cl].
  simpl. split_and!.
  - by rewrite !lookup_insert_ne, lookup_insert_eq by done.
  - rewrite lookup_insert_ne, lookup_insert_eq by done.
    by rewrite lookup_insert_ne by done.
  - by rewrite lookup_insert_eq.
  - intros k ? ? ?. by rewrite !lookup_insert_ne by done.
  - done.
Qed.


Lemma incr_bump k x : Js.incr (Some (Js.bump (S k) x)) = Js.bump (S (S k)) x.
Proof. destruct x as [[|z]|]; simpl; try done. f_equal. lia. Qed.

Lemma listen_incr_stats_iter ty k w :
  ty <> "total" -> ty <> "last" ->
  let w' := Nat.iter (S k) (listen_incr_stats ty) w in
  connections (Stats w') !! ty = Some (Js.bump (S k) (connections (Stats w) !! ty))
  /\ connections (Stats w') !! "total"
     = Some (Js.bump (S k) (connections (Stats w) !! "total"))
  /\ connections (Stats w') !! "last" = Some (Js.Int (_now w))
  /\ (forall x, x <> ty -> x <> "total" -> x <> "last" ->
      connections (Stats w') !! x = connections (Stats w) !! x)
  /\ clock w' = clock w.
Proof.
  intros H1 H2. induction k as [|k IH].
  - cbv zeta. simpl Nat.iter.
    destruct (listen_incr_stats_fields ty w H1 H2) as (E1 & E2 & E3 & E4 & E5).
    split_and!; done.
  - cbv zeta in *. change (Nat.iter (S (S k)) (listen_incr_stats ty) w)
      with (listen_incr_stats ty (Nat.iter (S k) (listen_incr_stats ty) w)).
    destruct IH as (I1 & I2 & I3 & I4 & I5).
    destruct (listen_incr_stats_fields ty (Nat.iter (S k) (listen_incr_stats ty) w) H1 H2)
      as (E1 & E2 & E3 & E4 & E5).
    split_and!.
    + by rewrite E1, I1, incr_bump.
    + by rewrite E2, I2, incr_bump.
    + rewrite E3. unfold _now. by rewrite I5.
    + intros x ? ? ?. rewrite E4 by done. by apply I4.
    + congruence.
Qed.

(** The selected backend and the wiring of an accepted connection. *)
Lemma on_connection_Ret ty w b w' :
  on_connection ty w = Ret b w' ->
  exists r,
    (_available_server (State_servers w) w).1 = Some r
    /\ b = (if is_stream r then Pipe r else Manual r)
    /\ is_usable r w = true
    /\ last_sent (health r w') = Some (_now w)
    /\ State_servers w' = State_servers w
    /\ handles w' = handles w
    /\ connections (Stats w') !! "last" = Some (Js.Int (_now w)).
Proof.
  unfold on_connection.
  pose proof (_available_server_same_env (State_servers w) w) as Henv.
  destruct (_available_server (State_servers w) w) as [[r|] w1] eqn:E; [|done].
  simpl in Henv. destruct Henv as (_ & _ & Hs & Hh & Hc).
  assert (Hu : is_usable r w = true).
  { destruct (_available_server_Some (State_servers w) w r) as (_&_&_&_&_&?&_);
      [by rewrite E|done]. }
  set (w2 := incr_stats r (listen_incr_stats ty w1)).
  assert (F : last_sent (health r w2) = Some (_now w)
              /\ State_servers w2 = State_servers w /\ handles w2 = handles w
              /\ connections (Stats w2) !! "last" = Some (Js.Int (_now w))).
  { unfold w2. rewrite health_incr_stats. unfold _now. rewrite <- Hs, <- Hh, <- Hc.
    unfold incr_stats, listen_incr_stats, health, _now.
    destruct w1 as [C [c st up] S sp upr hs o cl], (kind r); simpl;
      by rewrite lookup_insert_eq. }
  destruct F as (F1 & F2 & F3 & F4). clearbody w2.
  assert (G : forall l, last_sent (health r (when (trace (Config w2)) l w2)) = Some (_now w)
              /\ State_servers (when (trace (Config w2)) l w2) = State_servers w
              /\ handles (when (trace (Config w2)) l w2) = handles w
              /\ connections (Stats (when (trace (Config w2)) l w2)) !! "last"
                 = Some (Js.Int (_now w))).
  { intros l. unfold health. rewrite proto_when. fold (health r w2).
    unfold when. by destruct (trace _), w2. }
  destruct (is_stream r) eqn:Hst; intros [= <- <-]; exists r; rewrite Hst;
    destruct (G (UDebug ("Piping to " +:+ name r))) as (?&?&?&?);
    destruct (G (UDebug ("Manual send to " +:+ name r))) as (?&?&?&?);
    by split_and!.
Qed.

(** *** The [stats] command *)

Lemma stats_map_fold (f : Remote -> StatsView) (l : Js.Obj Remote)
    (acc : Js.Obj StatsView) :
  NoDup (Js.keys acc ++ ((fun e : string * Remote => name e.2) <$> l))%list ->
  foldl (fun m '(idx, r) => Js.set (name r) (f r) m) acc l
  = (acc ++ ((fun e : string * Remote => (name e.2, f e.2)) <$> l))%list.
Proof.
  revert acc. induction l as [|[idx r] l IH]; intros acc Hnd; simpl.
  - by rewrite app_nil_r.
  - simpl in Hnd. apply NoDup_app in Hnd as (Ha & Hd & Hl).
    apply NoDup_cons in Hl as [Hr Hl].
    assert (Hn : name r ∉ Js.keys acc).
    { intros Hin. apply (Hd _ Hin). by left. }
    destruct (get_None_set acc (name r) (f r)
                (SetupFacts.not_key_get_None _ _ Hn)) as [-> _].
    rewrite IH.
    + by rewrite <- app_assoc.
    + unfold Js.keys. rewrite fmap_app. simpl. rewrite <- app_assoc. simpl.
      apply NoDup_app. split_and!; [done| |by apply NoDup_cons].
      intros x Hx [->|Hin]%elem_of_cons; [done|]. apply (Hd _ Hx). by right.
Qed.

Lemma wf_names w :
  wf w -> (fun e : string * Remote => name e.2) <$> State_servers w
          = Js.keys (State_servers w)
          /\ (fun e : string * Remote => (name e.2, e.2)) <$> State_servers w
             = State_servers w.
Proof.
  intros [_ Hall]. apply forallb_Forall in Hall. unfold Js.keys.
  induction Hall as [|[k v] l Hx _ IH]; [done|]. destruct IH as [IH1 IH2].
  unfold entry_ok in Hx. simpl in Hx.
  apply andb_true_iff in Hx as [[[Hk _]%andb_true_iff _]%andb_true_iff _].
  apply String.eqb_eq in Hk. rewrite !fmap_cons, IH1, IH2. cbn [fst snd].
  by rewrite Hk.
Qed.

(** What [___admin_command] leaves in the globals. *)
Lemma ___admin_command_world cmd w :
  let w' := (___admin_command cmd w).2 in
  State_servers w' = State_servers w /\ handles w' = handles w
  /\ clock w' = clock w /\ Config w' = Config w
  /\ start_time (Stats w') = start_time (Stats w)
  /\ uptime (Stats w') = _now w - start_time (Stats w)
  /\ forall k, k <> "idle" -> connections (Stats w') !! k = connections (Stats w) !! k.
Proof.
  unfold ___admin_command, when, _now.
  destruct w as [C [c st up] S sp upr hs o cl]; simpl.
  destruct (debug C); simpl;
    repeat match goal with
           | |- context [if String.eqb cmd ?s then _ else _] =>
               destruct (String.eqb cmd s)
           end; simpl; split_and!; try done;
    intros k Hk; by rewrite lookup_insert_ne.
Qed.

End HandlerFacts.

(** ** Further facts: the supervisor and the lib objects *)

Module TickFacts.
Import Piped PipedFacts.

Lemma reconnect_loop_noop idxs w :
  wf w ->
  (forall i idx r, State_servers w !! i = Some (idx, r) ->
                   is_available (health r w) = true) ->
  (forall k, k ∈ idxs -> k ∈ Js.keys (State_servers w)) ->
  reconnect_loop idxs w = Ret tt w.
Proof.
  intros Hwf Hav. induction idxs as [|idx rest IH]; intros Hsub; [done|].
  destruct (key_lookup _ _ (Hsub idx ltac:(left))) as (i & r & Hi).
  rewrite reconnect_loop_cons.
  rewrite (reconnect_body_available _ _ _ _ Hwf Hi (Hav _ _ _ Hi)).
  apply IH. intros k Hk. apply Hsub. by right.
Qed.

(** Under well-formedness a stream instance's socket carries its name, so
    no other property of [State.servers] points at it. *)
Lemma wf_socket_unshared w i j idx1 idx2 r1 r2 :
  wf w -> i <> j ->
  State_servers w !! i = Some (idx1, r1) ->
  State_servers w !! j = Some (idx2, r2) ->
  kind r1 = Stream ->
  connection r1 <> connection r2.
Proof.
  intros Hwf Hij H1 H2 Hk E.
  destruct (wf_entry _ _ _ _ Hwf H1) as (Hn1 & _ & Hok1 & _).
  destruct (wf_entry _ _ _ _ Hwf H2) as (Hn2 & _ & Hok2 & _).
  unfold handle_ok in *. rewrite Hk in Hok1. rewrite <- E in Hok2.
  destruct (handles w !! connection r1) as [[d c o|]|]; try done.
  destruct (kind r2); [|done].
  apply String.eqb_eq in Hok1, Hok2. apply Hij.
  destruct Hwf as [Hnd _]. eapply key_unique; [exact Hnd|exact H1|].
  rewrite H2. f_equal. f_equal. congruence.
Qed.

End TickFacts.

Module LibFacts.
Import RemoteSend.

Lemma run_cons now o ops this :
  run ((now, o) :: ops) this = run ops (step now o this).
Proof. done. Qed.

Lemma step_frame now o this :
  name (step now o this) = name this
  /\ is_stream (step now o this) = is_stream this
  /\ messages (step now o this)
     = messages this + (if is_incr_stats o then 1 else 0)
  /\ last_sent (step now o this)
     = (if is_incr_stats o then Some now else last_sent this).
Proof. destruct o; simpl; split_and!; try done; lia. Qed.

Lemma run_frame ops this :
  name (run ops this) = name this
  /\ is_stream (run ops this) = is_stream this
  /\ messages (run ops this) = messages this + count_incr_stats ops.
Proof.
  unfold count_incr_stats. revert this.
  induction ops as [|[now o] ops IH]; intros this.
  - simpl. split_and!; try done. lia.
  - rewrite run_cons. destruct (IH (step now o this)) as (-> & -> & ->).
    destruct (step_frame now o this) as (-> & -> & -> & _).
    split_and!; try done. simpl. destruct (is_incr_stats o); simpl; lia.
Qed.

Lemma run_stays_available ops this :
  forallb (fun x => negb (is_mark_unavailable x.2)) ops = true ->
  is_available this = true ->
  is_available (run ops this) = true.
Proof.
  revert this. induction ops as [|[now o] ops IH]; intros this; [done|].
  simpl forallb. intros [Ho Hall]%andb_true_iff Ha. rewrite run_cons.
  apply IH; [done|]. destruct o; simpl in *; done.
Qed.

Lemma run_app ops1 ops2 this : run (ops1 ++ ops2) this = run ops2 (run ops1 this).
Proof. unfold run. apply foldl_app. Qed.

End LibFacts.

(** ** Further properties of the code *)

(** X1.  The expression for [type://host:port] reads back what was put
    together: for a type of word characters, a host free of line
    terminators and a port of digits, the three groups are the type, the
    host and the port (the lazy host group runs up to the last colon),
    and the same string is not taken for a socket path. *)
Theorem X1_url_round_trip ty h p :
  ty <> "" -> Js.all_word ty = true ->
  h <> "" -> Js.no_line_terminator h = true ->
  p <> "" -> Js.all_digits p = true ->
  Js.match_url (ty +:+ "://" +:+ h +:+ ":" +:+ p) = Some (ty, h, p)
  /\ Js.match_socket (ty +:+ "://" +:+ h +:+ ":" +:+ p) = false.
Proof.
  intros. split; [by apply ParseFacts.match_url_format
                 | by apply ParseFacts.match_socket_word].
Qed.

(** X2.  [_connect_to_server] on [tcp://host:port] builds a stream
    instance named by the whole string around one new socket whose
    connect is pending, with that host and port; on [udp://host:port] it
    builds a datagram instance around one new datagram socket and leaves
    the datagram prototype available. *)
Theorem X2_connect_tcp_and_udp h p rc w :
  h <> "" -> Js.no_line_terminator h = true ->
  p <> "" -> Js.all_digits p = true ->
  (exists w',
      _connect_to_server ("tcp://" +:+ h +:+ ":" +:+ p) rc w
      = Ret (mkRemote ("tcp://" +:+ h +:+ ":" +:+ p) Stream
                      (List.length (handles w)) h p None) w'
      /\ handles w'
         = (handles w ++ [NetSocket false true ("tcp://" +:+ h +:+ ":" +:+ p)])%list
      /\ stream_proto w' = stream_proto w)
  /\ (exists w',
         _connect_to_server ("udp://" +:+ h +:+ ":" +:+ p) rc w
         = Ret (mkRemote ("udp://" +:+ h +:+ ":" +:+ p) Udp
                         (List.length (handles w)) h p None) w'
         /\ handles w' = (handles w ++ [DgramSocket])%list
         /\ is_available (udp_proto w') = true).
Proof.
  intros Hh Hlt Hp Hd.
  assert (Ht := ParseFacts.match_url_format "tcp" h p ltac:(done) ltac:(done) Hh Hlt Hp Hd).
  assert (Hu := ParseFacts.match_url_format "udp" h p ltac:(done) ltac:(done) Hh Hlt Hp Hd).
  assert (St := ParseFacts.match_socket_word "tcp" ("://" +:+ h +:+ ":" +:+ p)
                  ltac:(done) ltac:(done)).
  assert (Su := ParseFacts.match_socket_word "udp" ("://" +:+ h +:+ ":" +:+ p)
                  ltac:(done) ltac:(done)).
  change ("tcp" +:+ "://" +:+ h +:+ ":" +:+ p) with ("tcp://" +:+ h +:+ ":" +:+ p) in *.
  change ("udp" +:+ "://" +:+ h +:+ ":" +:+ p) with ("udp://" +:+ h +:+ ":" +:+ p) in *.
  split; unfold _connect_to_server.
  - rewrite St, Ht. cbn [String.eqb Ascii.eqb Bool.eqb].
    unfold RemoteStreamConnect, alloc, when.
    destruct (trace (Config w)), w; eexists; by split_and!.
  - rewrite Su, Hu. cbn [String.eqb Ascii.eqb Bool.eqb].
    unfold RemoteUDPConnect, alloc, when, mark_available.
    destruct (trace (Config w)), w; eexists; by split_and!.
Qed.

(** X3.  A well-formed [type://host:port] whose type is neither [tcp] nor
    [udp] makes [_connect_to_server] throw the string that names the
    type, before any handle is created. *)
Theorem X3_unknown_server_type ty h p rc w :
  ty <> "" -> Js.all_word ty = true ->
  h <> "" -> Js.no_line_terminator h = true ->
  p <> "" -> Js.all_digits p = true ->
  ty <> "tcp" -> ty <> "udp" ->
  exists w',
    _connect_to_server (ty +:+ "://" +:+ h +:+ ":" +:+ p) rc w
    = Raise (Js.Thrown ("Unknown server type '" +:+ ty +:+ "'")) w'
    /\ handles w' = handles w
    /\ State_servers w' = State_servers w.
Proof.
  intros Hty Hw Hh Hlt Hp Hd Nt Nu. unfold _connect_to_server.
  rewrite ParseFacts.match_socket_word, ParseFacts.match_url_format by done.
  destruct (String.eqb_spec ty "tcp"); [done|].
  destruct (String.eqb_spec ty "udp"); [done|].
  eexists. split; [done|]. unfold when. by destruct (trace (Config w)), w.
Qed.

(** X4.  Whatever the string, [_connect_to_server] either returns an
    instance named by it whose handle is the one handle the call added to
    the table, or throws having created no handle; it never touches
    [State.servers], and it never writes the stream prototype. *)
Theorem X4_connect_outcome str rc w :
  match _connect_to_server str rc w with
  | Ret r w' =>
      name r = str
      /\ parse_kind str = Some (kind r)
      /\ connection r = List.length (handles w)
      /\ (exists h, handles w' = (handles w ++ [h])%list)
      /\ State_servers w' = State_servers w
      /\ stream_proto w' = stream_proto w
  | Raise e w' =>
      parse_kind str = None
      /\ handles w' = handles w
      /\ State_servers w' = State_servers w
      /\ stream_proto w' = stream_proto w
      /\ udp_proto w' = udp_proto w
  end.
Proof.
  destruct (_connect_to_server str rc w) as [r w'|e w'] eqn:E.
  - destruct (SetupFacts._connect_to_server_Ret _ _ _ _ _ E) as (?&?&?&?&?).
    split_and!; try done.
    pose proof (_connect_to_server_spec str rc w) as Hsp. simpl in Hsp.
    destruct (parse_kind str) as [[]|].
    + destruct Hsp as (h & p & Hsp). rewrite Hsp in E. injection E as <- <-.
      unfold when. by destruct (trace _), w.
    + destruct Hsp as (h & p & Hsp). rewrite Hsp in E. injection E as <- <-.
      unfold when. by destruct (trace _), w.
    + destruct Hsp as (e & Hsp). congruence.
  - destruct (SetupFacts._connect_to_server_Raise _ _ _ _ _ E) as (?&?&?&Hp).
    split_and!; try done; [apply (Hp Stream) | apply (Hp Udp)].
Qed.

(** X5.  Setup succeeds exactly when every string of [Config.servers]
    is a socket path, a [tcp]/[udp] address, or a name that
    [Object.prototype] defines (the loop passes such a name over without
    connecting it); any other string makes the initial loop throw. *)
Theorem X5_startup_succeeds_iff_all_parse cfg t0 :
  (exists w, startup cfg t0 = Ret tt w)
  <-> Forall (fun nm => Js.inherited nm = true \/ parse_kind nm <> None)
             (servers cfg).
Proof.
  split.
  - intros [w H]. eapply SetupFacts.initial_connect_parsed; [apply wf_boot|exact H].
  - apply SetupFacts.initial_connect_total.
Qed.

(** X6.  After setup [State.servers] has one property per distinct
    configured string that [Object.prototype] does not define, and no
    other; a string listed twice is connected once, a configured
    [toString] is not connected at all, and the process holds exactly one
    handle per property. *)
Theorem X6_startup_connects_each_server_once cfg t0 w :
  startup cfg t0 = Ret tt w ->
  NoDup (Js.keys (State_servers w))
  /\ (forall nm, nm ∈ Js.keys (State_servers w)
                 <-> nm ∈ servers cfg /\ Js.inherited nm = false)
  /\ List.length (handles w) = List.length (State_servers w).
Proof.
  intros H. destruct (wf_startup _ _ _ H) as [[Hnd _] _].
  destruct (SetupFacts.initial_connect_keys _ _ _ H) as [Hk Hl]. split_and!.
  - done.
  - intros nm. rewrite Hk. simpl. rewrite elem_of_nil. tauto.
  - simpl in Hl. lia.
Qed.

(** X7.  The listener bookkeeping composes: after [k+1] accepted units on
    a listener of type [ty], the counter under [ty] and [total] have each
    grown by [k+1] if they held a number, and hold [NaN] if the property
    was missing or already [NaN]; [last] is the clock; nothing else in
    [Stats.connections] moves.  [Stats.connections] starts without a
    property [unix], the type the Unix-socket listener is created with,
    so that counter is [NaN] from the first connection on while [socket]
    stays as it was. *)
Theorem X7_listener_counters ty k w cfg t0 :
  ty <> "total" -> ty <> "last" ->
  (connections (Stats (Nat.iter (S k) (listen_incr_stats ty) w)) !! ty
   = Some (Js.bump (S k) (connections (Stats w) !! ty))
   /\ connections (Stats (Nat.iter (S k) (listen_incr_stats ty) w)) !! "total"
      = Some (Js.bump (S k) (connections (Stats w) !! "total"))
   /\ connections (Stats (Nat.iter (S k) (listen_incr_stats ty) w)) !! "last"
      = Some (Js.Int (_now w))
   /\ forall x, x <> ty -> x <> "total" -> x <> "last" ->
                connections (Stats (Nat.iter (S k) (listen_incr_stats ty) w)) !! x
                = connections (Stats w) !! x)
  /\ connections (Stats (boot cfg t0)) !! "unix" = None
  /\ connections (Stats (Nat.iter (S k) (listen_incr_stats "unix") (boot cfg t0)))
     !! "unix" = Some Js.NaN.
Proof.
  intros H1 H2.
  destruct (HandlerFacts.listen_incr_stats_iter ty k w H1 H2) as (E1 & E2 & E3 & E4 & _).
  split; [by split_and!|].
  assert (Hb : connections (Stats (boot cfg t0)) !! "unix" = None) by by vm_compute.
  split; [done|].
  destruct (HandlerFacts.listen_incr_stats_iter "unix" k (boot cfg t0)
              ltac:(done) ltac:(done)) as (-> & _).
  by rewrite Hb.
Qed.

(** X8.  On a well-formed world the [stats] command answers with one
    entry per property of [State.servers], in order, holding what that
    backend's [stats()] returns once [Stats.uptime] has been recomputed
    as now minus the start time; a backend that never sent reports its
    idle time as that uptime. *)
Theorem X8_stats_command_reply w :
  wf w ->
  (___admin_command "stats" w).1
  = JsonStats (Stats (___admin_command "stats" w).2)
      ((fun e : string * Remote =>
          (e.1, stats e.2 (___admin_command "stats" w).2)) <$> State_servers w)
  /\ uptime (Stats (___admin_command "stats" w).2) = _now w - start_time (Stats w)
  /\ Forall (fun e : string * Remote =>
               last_sent (health e.2 w) = None ->
               sv_idle (stats e.2 (___admin_command "stats" w).2)
               = _now w - start_time (Stats w))
            (State_servers w).
Proof.
  intros Hwf.
  destruct (HandlerFacts.___admin_command_world "stats" w) as (Hs & _ & _ & _ & _ & Hup & _).
  assert (Hp : forall k, proto k (___admin_command "stats" w).2 = proto k w)
    by (intros; apply ___admin_command_proto).
  assert (E : (___admin_command "stats" w).1
              = JsonStats (Stats (___admin_command "stats" w).2)
                  (foldl (fun m '(idx, r) =>
                            Js.set (name r) (stats r (___admin_command "stats" w).2) m)
                         [] (State_servers (___admin_command "stats" w).2)))
    by reflexivity.
  rewrite E. clear E.
  remember ((___admin_command "stats" w).2) as w' eqn:Ew. clear Ew.
  split_and!; [|done|].
  - rewrite Hs. f_equal.
    destruct (HandlerFacts.wf_names w Hwf) as [Hn _].
    rewrite (HandlerFacts.stats_map_fold (fun r => stats r w')).
    + rewrite app_nil_l. apply Forall_fmap_ext_1.
      destruct Hwf as [_ Hall]. apply forallb_Forall in Hall.
      eapply Forall_impl; [exact Hall|]. intros [k v]. unfold entry_ok. simpl.
      intros [[[Hk _]%andb_true_iff _]%andb_true_iff _]%andb_true_iff.
      apply String.eqb_eq in Hk. by rewrite Hk.
    + change (Js.keys []) with (@nil string). rewrite app_nil_l, Hn.
      by destruct Hwf.
  - apply Forall_forall. intros [k v] _ Hl. unfold stats, health in *.
    cbn [snd] in *. rewrite Hp, Hl. cbn [sv_idle]. by rewrite Hup.
Qed.

(** X9.  An admin command never touches the backends: whatever the
    data, the handler leaves [State.servers], the handles, both
    prototypes and the clock as they were, counts the command under
    [admin], and leaves the connection as open or closed as it found
    it, with one more reply on an open one. *)
Theorem X9_admin_data_leaves_backends_alone data s w :
  State_servers (on_admin_data data s w).2 = State_servers w
  /\ handles (on_admin_data data s w).2 = handles w
  /\ stream_proto (on_admin_data data s w).2 = stream_proto w
  /\ udp_proto (on_admin_data data s w).2 = udp_proto w
  /\ clock (on_admin_data data s w).2 = clock w
  /\ connections (Stats (on_admin_data data s w).2) !! "admin"
     = Some (Js.incr (connections (Stats w) !! "admin"))
  /\ closed (on_admin_data data s w).1 = closed s
  /\ List.length (written (on_admin_data data s w).1)
     = (if closed s then List.length (written s)
        else S (List.length (written s))).
Proof.
  unfold on_admin_data.
  set (w1 := set_stats _ w).
  pose proof (HandlerFacts.___admin_command_world (Js.trim data) w1)
    as (Hs & Hh & Hc & _ & _ & _ & Hk).
  pose proof (___admin_command_proto (Js.trim data) Stream w1) as Hps.
  pose proof (___admin_command_proto (Js.trim data) Udp w1) as Hpu.
  destruct (___admin_command (Js.trim data) w1) as [reply w2]. simpl in *.
  rewrite Hs, Hh, Hc, Hps, Hpu, Hk by done. unfold w1, stream_write.
  destruct w as [C [c st up] S sp upr hs o cl]. simpl.
  rewrite lookup_insert_eq. destruct (closed s) eqn:E; simpl; rewrite ?E;
    split_and!; try done. rewrite length_app. simpl. lia.
Qed.

(** X10.  The handler of [lib/admin_server.js] answers every command
    with [pong], with [OK], with the printed configuration, or with a
    line that starts [ADMIN ERROR], contains the command and is also
    handed to the log; an exception from the printer is caught into such
    a line.  Whatever the command, it stores the process uptime. *)
Theorem X10_lib_admin_replies
    {ConfigT : Type} (_json_pp : ConfigT -> Js.Exn + string)
    (inspect : Js.Exn -> string) cmd config stats up now :
  AdminServer.uptime
    (AdminServer.___admin_command _json_pp inspect cmd config stats up now).1.2 = up
  /\ ((cmd = "ping"
       /\ (AdminServer.___admin_command _json_pp inspect cmd config stats up now).1.1
          = "pong")
      \/ (cmd = "__dump"
          /\ (AdminServer.___admin_command _json_pp inspect cmd config stats up now).1.1
             = "OK")
      \/ (cmd = "config"
          /\ _json_pp config
             = inr (AdminServer.___admin_command _json_pp inspect cmd config stats up now).1.1)
      \/ (let reply :=
            (AdminServer.___admin_command _json_pp inspect cmd config stats up now).1.1 in
          let lines :=
            (AdminServer.___admin_command _json_pp inspect cmd config stats up now).2 in
          String.prefix "ADMIN ERROR" reply = true
          /\ Js.includes cmd reply = true
          /\ (In (AdminServer.CLog reply) lines \/ In (AdminServer.CDebug reply) lines))).
Proof.
  unfold AdminServer.___admin_command.
  destruct (String.eqb_spec cmd "config") as [->|N1].
  - destruct (_json_pp config) as [e|s] eqn:E; simpl.
    + split; [done|]. do 3 right. split_and!; [done| |left; by right; left].
      apply (includes_app "ADMIN ERROR on '" "config" ("': " +:+ inspect e)).
    + split; [done|]. right. right. left. done.
  - destruct (String.eqb_spec cmd "ping") as [->|N2]; [split; [done|by left]|].
    destruct (String.eqb_spec cmd "__dump") as [->|N3];
      [split; [done|right; by left]|].
    split; [done|]. do 3 right. cbv zeta. cbn [fst snd]. split_and!.
    + done.
    + apply includes_app.
    + right. right. by left.
Qed.

(** X11.  In [lib/remote_send.js], over any sequence of calls and
    socket events, [messages] grows by exactly the number of
    [incr_stats] calls; marks, connects and errors never touch it, nor
    the object's name or its stream flag; and the two halves of a
    sequence compose. *)
Theorem X11_lib_messages_count_incr_stats ops ops' this :
  RemoteSend.messages (RemoteSend.run ops this)
  = RemoteSend.messages this + RemoteSend.count_incr_stats ops
  /\ RemoteSend.name (RemoteSend.run ops this) = RemoteSend.name this
  /\ RemoteSend.is_stream (RemoteSend.run ops this) = RemoteSend.is_stream this
  /\ RemoteSend.run (ops ++ ops') this
     = RemoteSend.run ops' (RemoteSend.run ops this).
Proof.
  destruct (LibFacts.run_frame ops this) as (H1 & H2 & H3).
  split_and!; try done. apply LibFacts.run_app.
Qed.

(** X12.  In [lib/remote_send.js] only [mark_unavailable] takes a
    backend out of service: over any sequence of calls and events without
    one (errors included), a backend that is available stays available. *)
Theorem X12_lib_available_until_marked ops this :
  forallb (fun x => negb (RemoteSend.is_mark_unavailable x.2)) ops = true ->
  RemoteSend.is_available this = true ->
  RemoteSend.is_available (RemoteSend.run ops this) = true.
Proof. apply LibFacts.run_stays_available. Qed.

(** X13.  When the stream listener's handler returns, it has wired the
    connection to the backend the selector chose, piping to a stream
    backend and sending by hand to a datagram backend; that backend was
    usable when the handler started, its [last_sent] is now the clock,
    [Stats.connections.last] is the clock, and [State.servers] and the
    handles are untouched. *)
Theorem X13_connection_wiring ty w b w' :
  on_connection ty w = Ret b w' ->
  exists r,
    (_available_server (State_servers w) w).1 = Some r
    /\ b = (if is_stream r then Pipe r else Manual r)
    /\ is_usable r w = true
    /\ last_sent (health r w') = Some (_now w)
    /\ State_servers w' = State_servers w
    /\ handles w' = handles w
    /\ connections (Stats w') !! "last" = Some (Js.Int (_now w)).
Proof. apply HandlerFacts.on_connection_Ret. Qed.

(** X14.  What a backend's [send] puts on the wire: a stream backend
    writes the chunk as it is under every encoding; a datagram backend
    sends the whole chunk unless the encoding is ["ascii"], and then the
    chunk without its last byte, or a length of -1 for an empty chunk. *)
Theorem X14_send_forwarded_bytes r data w :
  forwarded (send r data w)
  = match kind r with
    | Stream => Some data
    | Udp =>
        if String.eqb (encoding (Config w)) "ascii"
        then match data with
             | [] => None
             | _ => Some (removelast data)
             end
        else Some data
    end.
Proof.
  unfold send. destruct (kind r); [done|].
  destruct (String.eqb_spec (encoding (Config w)) "ascii") as [E|N].
  - destruct data as [|x data]; [by apply forwarded_udp_send_ascii_empty|].
    destruct (@exists_last _ (x :: data) ltac:(done)) as (l' & a & Hl).
    rewrite Hl, (forwarded_udp_send_ascii r l' a w E), removelast_last.
    by destruct l'.
  - by apply forwarded_udp_send_raw.
Qed.

(** X15.  What [_available_server] returns, whatever the set: a
    backend of the set that was usable when the call started and still
    is when it returns, every backend before it being unusable by then;
    or [false], and then no backend of the set is usable when it returns
    and the last line printed is ["No available servers"]. *)
Theorem X15_selector_result servers w :
  match (_available_server servers w).1 with
  | Some r =>
      exists (pre : Js.Obj Remote) idx post,
        servers = (pre ++ (idx, r) :: post)%list
        /\ is_usable r w = true
        /\ is_usable r (_available_server servers w).2 = true
        /\ Forall (fun e => is_usable e.2 (_available_server servers w).2 = false) pre
  | None =>
      Forall (fun e => is_usable e.2 (_available_server servers w).2 = false) servers
      /\ last (out (_available_server servers w).2)
         = Some (UError "No available servers")
  end.
Proof.
  destruct (_available_server servers w).1 as [r|] eqn:E.
  - destruct (_available_server_Some _ _ _ E) as (pre & idx & post & ? & ? & ? & ?).
    exists pre, idx, post. by split_and!.
  - split; [by apply _available_server_None
           | by apply HandlerFacts._available_server_None_line].
Qed.

(** X16.  If no backend of the set is usable when the call starts, the
    selector returns [false]: a scan never makes a backend usable. *)
Theorem X16_selector_finds_nothing servers w :
  forallb (fun e => negb (is_usable e.2 w)) servers = true ->
  (_available_server servers w).1 = None.
Proof.
  intros H. apply HandlerFacts._available_server_unusable.
  apply forallb_Forall in H. eapply Forall_impl; [exact H|].
  intros e. apply negb_true_iff.
Qed.

(** X17.  A scan writes nothing but health demotions and log lines: it
    leaves the configuration, the statistics, [State.servers], the
    handles and the clock as they were, never writes [last_sent], and
    never turns a flag that read unavailable to available. *)
Theorem X17_selector_frame servers k w :
  same_env w (_available_server servers w).2
  /\ last_sent (proto k (_available_server servers w).2) = last_sent (proto k w)
  /\ (is_available (proto k w) = false ->
      is_available (proto k (_available_server servers w).2) = false).
Proof.
  destruct (_available_server_down servers k w) as [Hd Hl].
  split_and!; [apply _available_server_same_env|done|].
  intros Hf. apply not_true_is_false. intros Ht. apply Hd in Ht. congruence.
Qed.

(** X18.  The selector does return the lowest-index usable backend
    whenever no backend before it was built by the same constructor. *)
Theorem X18_selector_first_of_its_kind (pre : Js.Obj Remote) idx r post w :
  is_usable r w = true ->
  forallb (fun e => negb (bool_decide (kind e.2 = kind r))
                    && negb (is_usable e.2 w)) pre = true ->
  (_available_server (pre ++ (idx, r) :: post)%list w).1 = Some r.
Proof.
  intros Hu Hpre. apply _available_server_first_of_kind; [done|].
  apply forallb_Forall in Hpre. eapply Forall_impl; [exact Hpre|].
  intros e [Hk Hn]%andb_true_iff. split.
  - apply negb_true_iff, bool_decide_eq_false in Hk. done.
  - by apply negb_true_iff.
Qed.

Module ReachFacts.
Import Piped PipedFacts.

Lemma owns_stream obj w : owns obj w = true -> kind obj = Stream.
Proof.
  unfold owns, is_stream. intros [H _]%andb_true_iff. by destruct (kind obj).
Qed.

Lemma pending_owns obj w : pending obj w = true -> owns obj w = true.
Proof. unfold pending. by intros [? _]%andb_true_iff. Qed.

Lemma after_error obj e w :
  owns obj w = true ->
  keeps w (after (EvError obj e) w)
  /\ stream_proto (after (EvError obj e) w)
     = mkHealth false (_now w) (state_changes (stream_proto w) + 1)
                (last_sent (stream_proto w))
  /\ udp_proto (after (EvError obj e) w) = udp_proto w.
Proof.
  intros Ho. pose proof (owns_stream _ _ Ho) as Hk. simpl. rewrite Ho.
  unfold on_error, mark_unavailable, health. rewrite Hk. cbv zeta.
  set (w1 := destroy (connection obj) w).
  assert (K1 : keeps w w1) by apply keeps_destroy.
  assert (P1 : forall k, proto k w1 = proto k w) by (intros; apply proto_destroy).
  assert (C1 : clock w1 = clock w).
  { unfold w1, destroy. destruct (handles w !! connection obj) as [[]|]; by destruct w. }
  clearbody w1.
  set (w2 := when (trace (Config w1)) (UError ("ERROR: " +:+ name obj +:+ ": " +:+ e)) w1).
  assert (K2 : keeps w1 w2) by apply keeps_when.
  assert (P2 : forall k, proto k w2 = proto k w1) by (intros; apply proto_when).
  assert (C2 : clock w2 = clock w1) by (unfold w2, when; by destruct (trace _), w1).
  clearbody w2. split_and!.
  - eapply keeps_trans; [exact K1|]. eapply keeps_trans; [exact K2|].
    apply keeps_set_stream.
  - pose proof (P2 Stream) as E2. pose proof (P1 Stream) as E1. simpl in E1, E2.
    unfold _now. rewrite <- C1, <- C2, <- E1, <- E2. by destruct w2.
  - pose proof (P2 Udp) as E2. pose proof (P1 Udp) as E1. simpl in E1, E2.
    rewrite <- E1, <- E2. by destruct w2.
Qed.

Lemma after_connect obj w :
  pending obj w = true ->
  is_available (stream_proto (after (EvConnect obj) w)) = true
  /\ udp_proto (after (EvConnect obj) w) = udp_proto w.
Proof.
  intros Hp. pose proof (owns_stream _ _ (pending_owns _ _ Hp)) as Hk.
  simpl. rewrite Hp. unfold on_connect, mark_available, health. rewrite Hk. cbv zeta.
  set (w2 := print _ (settle (connection obj) w)).
  assert (P : udp_proto w2 = udp_proto w).
  { unfold w2.
    change (proto Udp (print (ULog ("Connected to " +:+ name obj))
                             (settle (connection obj) w)) = proto Udp w).
    by rewrite proto_print, proto_settle. }
  clearbody w2. split; [by destruct w2|]. rewrite <- P. by destruct w2.
Qed.

(** A datagram backend of a well-formed world is usable, and stays so
    through a scan. *)
Lemma wf_udp_usable w i idx r :
  wf w -> State_servers w !! i = Some (idx, r) -> kind r = Udp ->
  is_usable r w = true
  /\ is_usable r (_available_server (State_servers w) w).2 = true.
Proof.
  intros Hwf Hi Hk. destruct (wf_entry _ _ _ _ Hwf Hi) as (_ & _ & Hok & Hu).
  destruct Hu as [Hs|Hu]; [unfold is_stream in Hs; by rewrite Hk in Hs|].
  pose proof (keeps__available_server _ _ (wf_handles_ok _ Hwf)) as (_ & Kh & Ku).
  assert (G : forall w0, handle_ok r w0 = true -> is_available (udp_proto w0) = true ->
                         is_usable r w0 = true).
  { intros w0 H1 H2. unfold is_usable, health, handle_ok in *. rewrite Hk in *.
    simpl. rewrite H2. by destruct (handles w0 !! connection r) as [[]|]. }
  split; apply G; auto.
Qed.

End ReachFacts.

(** X19.  Once setup has succeeded, a datagram backend is usable after
    every sequence of events: nothing the process does demotes it.  So
    with a datagram backend configured the selector always finds a
    backend and the stream listener's handler always returns. *)
Theorem X19_datagram_backend_always_usable cfg t0 w0 es i idx r ty :
  startup cfg t0 = Ret tt w0 ->
  State_servers (run es w0) !! i = Some (idx, r) ->
  kind r = Udp ->
  is_usable r (run es w0) = true
  /\ (_available_server (State_servers (run es w0)) (run es w0)).1 <> None
  /\ exists b w', on_connection ty (run es w0) = Ret b w'.
Proof.
  intros Hs Hi Hk. destruct (wf_startup _ _ _ Hs) as [Hwf0 _].
  pose proof (wf_run es w0 Hwf0) as Hwf.
  remember (run es w0) as w eqn:Ew. clear Ew.
  destruct (ReachFacts.wf_udp_usable w i idx r Hwf Hi Hk) as [U1 U2].
  assert (Hsome : (_available_server (State_servers w) w).1 <> None).
  { intros Hn. pose proof (_available_server_None _ _ Hn) as Hall.
    eapply Forall_lookup_1 in Hall; [|exact Hi]. simpl in Hall. congruence. }
  split_and!; [done|done|].
  unfold on_connection.
  destruct (_available_server (State_servers w) w) as [[r0|] w1]; [|done].
  destruct (is_stream r0); by do 2 eexists.
Qed.

(** X20.  Once setup has succeeded the reconnect interval never throws,
    whatever has happened since, and leaves a well-formed world with the
    same keys in the same order. *)
Theorem X20_tick_never_throws cfg t0 w0 es :
  startup cfg t0 = Ret tt w0 ->
  exists w',
    reconnectInt (run es w0) = Ret tt w'
    /\ wf w'
    /\ Js.keys (State_servers w') = Js.keys (State_servers (run es w0)).
Proof.
  intros Hs. destruct (wf_startup _ _ _ Hs) as [Hwf0 _].
  destruct (reconnectInt_wf (run es w0) (wf_run es w0 Hwf0))
    as (w' & Hr & Hwf' & _ & Hk & _).
  by exists w'.
Qed.

(** X21.  A tick that finds every backend reading available changes
    nothing at all: no handle is created, nothing is printed. *)
Theorem X21_tick_is_noop_when_all_available w :
  wf w ->
  forallb (fun e => is_available (health e.2 w)) (State_servers w) = true ->
  reconnectInt w = Ret tt w.
Proof.
  intros Hwf Hall. apply TickFacts.reconnect_loop_noop; [done| |done].
  intros i idx r Hi. apply forallb_Forall in Hall.
  eapply Forall_lookup_1 in Hall; [|exact Hi]. done.
Qed.

(** X22.  In a well-formed world a stream backend's socket belongs to
    it alone: no other property of [State.servers] holds the same
    handle. *)
Theorem X22_stream_socket_not_shared w i j idx1 idx2 r1 r2 :
  wf w -> i <> j ->
  State_servers w !! i = Some (idx1, r1) ->
  State_servers w !! j = Some (idx2, r2) ->
  kind r1 = Stream ->
  connection r1 <> connection r2.
Proof. apply TickFacts.wf_socket_unshared. Qed.

(** X23.  Health is kept per constructor, not per backend: an ['error']
    on the socket of one stream backend, whether its connect is pending
    or has completed, makes every stream backend read unavailable; the
    ['connect'] of one makes every stream backend read available; and
    neither changes what a datagram backend reads. *)
Theorem X23_socket_events_reach_every_stream_backend obj e obj' r u w :
  kind r = Stream -> kind u = Udp ->
  (owns obj w = true ->
   is_available (health r (after (EvError obj e) w)) = false
   /\ health u (after (EvError obj e) w) = health u w)
  /\ (pending obj' w = true ->
      is_available (health r (after (EvConnect obj') w)) = true
      /\ health u (after (EvConnect obj') w) = health u w).
Proof.
  intros Hr Hu. split.
  - intros Ho. destruct (ReachFacts.after_error obj e w Ho) as (_ & Es & Eu).
    unfold health, proto. by rewrite Hr, Hu, Es, Eu.
  - intros Hp. destruct (ReachFacts.after_connect obj' w Hp) as (Cs & Cu).
    unfold health, proto. by rewrite Hr, Hu, Cs, Cu.
Qed.

(** X24.  After an ['error'] on the socket of any stream backend, the
    next tick rebuilds every stream backend of [State.servers], the
    connected ones too.  Each gets, under its old key and name, a handle
    the tick created: the index was free before the tick, holds a socket
    of that backend whose connect is pending after it, and one more
    connect of the backend is in flight.  The previous socket stays in
    the table as it was. *)
Theorem X24_one_error_reconnects_every_stream_backend obj e w i idx r :
  wf w -> owns obj w = true ->
  State_servers w !! i = Some (idx, r) -> kind r = Stream ->
  exists w' r',
    reconnectInt (after (EvError obj e) w) = Ret tt w'
    /\ State_servers w' !! i = Some (idx, r')
    /\ name r' = name r
    /\ kind r' = Stream
    /\ handles (after (EvError obj e) w) !! connection r' = None
    /\ handles w' !! connection r' = Some (NetSocket false true (name r))
    /\ (in_flight (name r) (after (EvError obj e) w)
        < in_flight (name r) w')%nat
    /\ connection r' <> connection r
    /\ handles w' !! connection r
       = handles (after (EvError obj e) w) !! connection r.
Proof.
  intros Hwf Ho Hi Hk.
  destruct (ReachFacts.after_error obj e w Ho) as ((Hs & _) & Es & _).
  pose proof (wf_after (EvError obj e) w Hwf) as Hwf1.
  remember (after (EvError obj e) w) as w1 eqn:Ew. clear Ew.
  rewrite <- Hs in Hi.
  assert (Hu : is_available (health r w1) = false).
  { unfold health, proto. by rewrite Hk, Es. }
  destruct (reconnectInt_wf w1 Hwf1) as (w' & Hr & _ & Hg & _ & Hslots).
  destruct (Hslots i idx r Hi) as [_ Hnew].
  destruct (Hnew Hu) as (r' & Hi' & Hro).
  pose proof (in_flight_grows r r' w1 w' Hg Hro) as Hfl.
  destruct Hro as (Hn & Hk' & Hlen & Hlk).
  destruct (wf_entry _ _ _ _ Hwf1 Hi) as (_ & _ & Hok & _).
  unfold handle_ok in Hok. rewrite Hk in Hok.
  destruct (handles w1 !! connection r) as [h|] eqn:El; [|done].
  exists w', r'. split_and!; try done.
  - congruence.
  - by apply lookup_ge_None_2.
  - apply lookup_lt_Some in El. lia.
  - by apply (grown_lookup w1 w').
Qed.

(** ** The further properties at concrete inputs *)

Lemma X1_witness :
  Js.match_url ("tcp" +:+ "://" +:+ "localhost" +:+ ":" +:+ "10001")
  = Some ("tcp", "localhost", "10001")
  /\ Js.match_socket ("tcp" +:+ "://" +:+ "localhost" +:+ ":" +:+ "10001") = false.
Proof.
  apply (X1_url_round_trip "tcp" "localhost" "10001");
    first [reflexivity | discriminate].
Defined.

Lemma X2_witness :
  (exists w',
      _connect_to_server ("tcp://" +:+ "h" +:+ ":" +:+ "9") true (one_pending true)
      = Ret (mkRemote ("tcp://" +:+ "h" +:+ ":" +:+ "9") Stream
                      (List.length (handles (one_pending true))) "h" "9" None) w'
      /\ handles w'
         = (handles (one_pending true)
            ++ [NetSocket false true ("tcp://" +:+ "h" +:+ ":" +:+ "9")])%list
      /\ stream_proto w' = stream_proto (one_pending true))
  /\ (exists w',
         _connect_to_server ("udp://" +:+ "h" +:+ ":" +:+ "9") true (one_pending true)
         = Ret (mkRemote ("udp://" +:+ "h" +:+ ":" +:+ "9") Udp
                         (List.length (handles (one_pending true))) "h" "9" None) w'
         /\ handles w' = (handles (one_pending true) ++ [DgramSocket])%list
         /\ is_available (udp_proto w') = true).
Proof.
  apply (X2_connect_tcp_and_udp "h" "9" true (one_pending true));
    first [reflexivity | discriminate].
Defined.

Lemma X3_witness :
  exists w',
    _connect_to_server ("http" +:+ "://" +:+ "h" +:+ ":" +:+ "80") false (one_pending true)
    = Raise (Js.Thrown ("Unknown server type '" +:+ "http" +:+ "'")) w'
    /\ handles w' = handles (one_pending true)
    /\ State_servers w' = State_servers (one_pending true).
Proof.
  apply (X3_unknown_server_type "http" "h" "80" false (one_pending true));
    first [reflexivity | discriminate].
Defined.

Lemma X6_witness :
  NoDup (Js.keys (State_servers (world (startup listed_twice_and_inherited 100))))
  /\ (forall nm,
         nm ∈ Js.keys (State_servers (world (startup listed_twice_and_inherited 100)))
         <-> nm ∈ servers listed_twice_and_inherited /\ Js.inherited nm = false)
  /\ List.length (handles (world (startup listed_twice_and_inherited 100)))
     = List.length (State_servers (world (startup listed_twice_and_inherited 100))).
Proof.
  apply (X6_startup_connects_each_server_once listed_twice_and_inherited 100).
  vm_compute. reflexivity.
Defined.

Lemma X7_witness :
  (connections (Stats (Nat.iter 3 (listen_incr_stats "tcp") (one_pending true))) !! "tcp"
   = Some (Js.bump 3 (connections (Stats (one_pending true)) !! "tcp"))
   /\ connections (Stats (Nat.iter 3 (listen_incr_stats "tcp") (one_pending true)))
      !! "total"
      = Some (Js.bump 3 (connections (Stats (one_pending true)) !! "total"))
   /\ connections (Stats (Nat.iter 3 (listen_incr_stats "tcp") (one_pending true)))
      !! "last" = Some (Js.Int (_now (one_pending true)))
   /\ forall x, x <> "tcp" -> x <> "total" -> x <> "last" ->
                connections (Stats (Nat.iter 3 (listen_incr_stats "tcp") (one_pending true)))
                !! x = connections (Stats (one_pending true)) !! x)
  /\ connections (Stats (boot listed_twice 100)) !! "unix" = None
  /\ connections (Stats (Nat.iter 3 (listen_incr_stats "unix") (boot listed_twice 100)))
     !! "unix" = Some Js.NaN.
Proof.
  apply (X7_listener_counters "tcp" 2 (one_pending true) listed_twice 100);
    discriminate.
Defined.

Lemma X8_witness :
  (___admin_command "stats" stream_and_udp).1
  = JsonStats (Stats (___admin_command "stats" stream_and_udp).2)
      ((fun e : string * Remote =>
          (e.1, stats e.2 (___admin_command "stats" stream_and_udp).2))
         <$> State_servers stream_and_udp)
  /\ uptime (Stats (___admin_command "stats" stream_and_udp).2)
     = _now stream_and_udp - start_time (Stats stream_and_udp)
  /\ Forall (fun e : string * Remote =>
               last_sent (health e.2 stream_and_udp) = None ->
               sv_idle (stats e.2 (___admin_command "stats" stream_and_udp).2)
               = _now stream_and_udp - start_time (Stats stream_and_udp))
            (State_servers stream_and_udp).
Proof. apply (X8_stats_command_reply stream_and_udp). concrete_wf. Defined.

Lemma X12_witness :
  RemoteSend.is_available
    (RemoteSend.run [(102, RemoteSend.Error true "EPIPE");
                     (103, RemoteSend.IncrStats);
                     (104, RemoteSend.Error false "ECONNRESET")]
                    lib_connected) = true.
Proof.
  apply (X12_lib_available_until_marked
           [(102, RemoteSend.Error true "EPIPE");
            (103, RemoteSend.IncrStats);
            (104, RemoteSend.Error false "ECONNRESET")] lib_connected);
    reflexivity.
Defined.

Lemma X13_witness :
  exists r,
    (_available_server (State_servers one_connected) one_connected).1 = Some r
    /\ Pipe A = (if is_stream r then Pipe r else Manual r)
    /\ is_usable r one_connected = true
    /\ last_sent (health r (after (EvConnection "tcp") one_connected))
       = Some (_now one_connected)
    /\ State_servers (after (EvConnection "tcp") one_connected)
       = State_servers one_connected
    /\ handles (after (EvConnection "tcp") one_connected) = handles one_connected
    /\ connections (Stats (after (EvConnection "tcp") one_connected)) !! "last"
       = Some (Js.Int (_now one_connected)).
Proof.
  apply (X13_connection_wiring "tcp" one_connected (Pipe A)
           (after (EvConnection "tcp") one_connected)).
  vm_compute. reflexivity.
Defined.

Lemma X16_witness :
  (_available_server (State_servers one_refused) one_refused).1 = None.
Proof.
  apply (X16_selector_finds_nothing (State_servers one_refused) one_refused).
  vm_compute. reflexivity.
Defined.

Lemma X17_witness :
  same_env one_refused
           (_available_server (State_servers one_refused) one_refused).2
  /\ last_sent (proto Stream (_available_server (State_servers one_refused)
                                                one_refused).2)
     = last_sent (proto Stream one_refused)
  /\ is_available (proto Stream (_available_server (State_servers one_refused)
                                                   one_refused).2) = false.
Proof.
  destruct (X17_selector_frame (State_servers one_refused) Stream one_refused)
    as (H1 & H2 & H3).
  split_and!; [exact H1 | exact H2 | apply H3; vm_compute; reflexivity].
Defined.

Lemma X18_witness :
  (_available_server ([("tcp://a:1", A)] ++ ("udp://h:9", U) :: [])%list
                     stream_and_udp).1 = Some U.
Proof.
  apply (X18_selector_first_of_its_kind [("tcp://a:1", A)] "udp://h:9" U []
           stream_and_udp); vm_compute; reflexivity.
Defined.

Lemma X19_witness :
  is_usable U (run [EvClock 101; EvError A "ECONNREFUSED"] stream_and_udp) = true
  /\ (_available_server
        (State_servers (run [EvClock 101; EvError A "ECONNREFUSED"] stream_and_udp))
        (run [EvClock 101; EvError A "ECONNREFUSED"] stream_and_udp)).1 <> None
  /\ exists b w',
      on_connection "tcp" (run [EvClock 101; EvError A "ECONNREFUSED"] stream_and_udp)
      = Ret b w'.
Proof.
  apply (X19_datagram_backend_always_usable
           (config ["tcp://a:1"; "udp://h:9"] true "ascii") 100 stream_and_udp
           [EvClock 101; EvError A "ECONNREFUSED"] 1%nat "udp://h:9" U "tcp");
    vm_compute; reflexivity.
Defined.

Lemma X20_witness :
  exists w',
    reconnectInt (run [EvClock 101; EvError A "ECONNREFUSED"] stream_and_udp)
    = Ret tt w'
    /\ wf w'
    /\ Js.keys (State_servers w')
       = Js.keys (State_servers
                    (run [EvClock 101; EvError A "ECONNREFUSED"] stream_and_udp)).
Proof.
  apply (X20_tick_never_throws
           (config ["tcp://a:1"; "udp://h:9"] true "ascii") 100 stream_and_udp
           [EvClock 101; EvError A "ECONNREFUSED"]).
  vm_compute. reflexivity.
Defined.

Lemma X21_witness : reconnectInt one_connected = Ret tt one_connected.
Proof.
  apply (X21_tick_is_noop_when_all_available one_connected);
    [concrete_wf | vm_compute; reflexivity].
Defined.

Lemma X22_witness : connection A <> connection B.
Proof.
  apply (X22_stream_socket_not_shared two_streams_connected 0%nat 1%nat
           "tcp://a:1" "tcp://b:2" A B);
    [concrete_wf | discriminate | vm_compute; reflexivity
     | vm_compute; reflexivity | reflexivity].
Defined.

Lemma X23_witness :
  let w := stream_udp_stream_first_connected in
  (is_available (health B2 (after (EvError A "EPIPE") w)) = false
   /\ health U (after (EvError A "EPIPE") w) = health U w)
  /\ (is_available (health B2 (after (EvConnect B2) w)) = true
      /\ health U (after (EvConnect B2) w) = health U w).
Proof.
  intros w.
  destruct (X23_socket_events_reach_every_stream_backend A "EPIPE" B2 B2 U
              stream_udp_stream_first_connected) as [H1 H2];
    [reflexivity | reflexivity |].
  split; [apply H1 | apply H2]; vm_compute; reflexivity.
Defined.

Lemma X24_witness :
  exists w' r',
    reconnectInt (after (EvError A "EPIPE") two_streams_connected) = Ret tt w'
    /\ State_servers w' !! 1%nat = Some ("tcp://b:2", r')
    /\ name r' = name B
    /\ kind r' = Stream
    /\ handles (after (EvError A "EPIPE") two_streams_connected) !! connection r'
       = None
    /\ handles w' !! connection r' = Some (NetSocket false true (name B))
    /\ (in_flight (name B) (after (EvError A "EPIPE") two_streams_connected)
        < in_flight (name B) w')%nat
    /\ connection r' <> connection B
    /\ handles w' !! connection B
       = handles (after (EvError A "EPIPE") two_streams_connected) !! connection B.
Proof.
  apply (X24_one_error_reconnects_every_stream_backend A "EPIPE"
           two_streams_connected 1%nat "tcp://b:2" B);
    [concrete_wf | vm_compute; reflexivity | vm_compute; reflexivity | reflexivity].
Defined.
